(** * smallsh: a shallow embedding of [smallsh.c] and its specification

    The development follows the source file function by function.  C strings
    are [string]s (the bytes before the terminating NUL), [int] and [pid_t]
    values are [Z], a [char*] that may be [NULL] is an [option string], and the
    two fixed arrays of [struct shell] are lists read and written by index.
    System calls are answered by an explicit environment and every externally
    visible action is recorded, in program order, in a trace of [event]s.
    Undefined behaviour of the C program (a [NULL] passed to [strlen], a
    conversion without argument in [sprintf], an access past an array) is a
    [Fault].  A heap string is the [string] of its contents; where the
    program writes into a block that is already allocated (the [sprintf] of
    [pidReplacement]) the size of the block is carried along, and a write
    past its end is a [Fault] as well.  [free] leaves the pointers stored in
    the array as they are.  The properties of the parser are stated for the
    array of arguments as [shellSetUp] leaves it; [commandLineArgumentReset]
    and one pass through the loop of [main] take the size of a pointer as a
    parameter. *)

From Stdlib Require Import ZArith String Ascii List Lia.
From stdpp Require Import base option list strings pretty gmap.

Open Scope string_scope.
Open Scope list_scope.
Open Scope Z_scope.

(** ** Results of code that may run into undefined behaviour *)

Inductive fault : Type :=
  | NullDeref      (* a NULL pointer handed to strlen / strcpy / strcmp *)
  | BadFormat      (* sprintf: a conversion without argument, or one the
                      model does not cover *)
  | OutOfBounds    (* array index past the declared size, or a write past
                      the end of a heap block *)
  | NoInput        (* the modelled input script is exhausted *)
  | OutOfFuel.     (* loop bound of the model exceeded *)

Inductive result (A : Type) : Type :=
  | Ok (a : A)
  | Fault (f : fault).
Arguments Ok {A} a.
Arguments Fault {A} f.

#[global] Instance result_ret : MRet result := fun A a => Ok a.
#[global] Instance result_bind : MBind result := fun A B k m =>
  match m with
  | Ok a => k a
  | Fault f => Fault f
  end.

(** ** Constants of the source *)

Definition MAX_INPUT : nat := 2048.
Definition MAX_ARGS : nat := 512.
(** The literal [50] of [int bgProcesses[50]] and of the loops over it. *)
Definition BG_SLOTS : nat := 50.

(** ** C strings *)

Definition newline : ascii := "010"%char.

Definition strlen (s : string) : nat := String.length s.

(** [s[i] = c] for [i] inside the string. *)
Fixpoint set_char (s : string) (i : nat) (c : ascii) : string :=
  match s, i with
  | EmptyString, _ => EmptyString
  | String _ r, O => String c r
  | String a r, S j => String a (set_char r j c)
  end.

(** [s[i] == c]; an index past the end never matches. *)
Definition char_is (s : string) (i : nat) (c : ascii) : bool :=
  match String.get i s with
  | Some a => Ascii.eqb a c
  | None => false
  end.

(** [strcmp(a, b) == 0]. *)
Definition streq (a b : string) : bool := String.eqb a b.

(** The conversion [%d] of the printf family. *)
Definition fmt_d (n : Z) : string := pretty n.

(** [sprintf(out, fmt, args...)] for the formats [pidReplacement] builds:
    ordinary characters are copied, [%%] writes one [%], [%d] writes the next
    argument in decimal.  A [%d] with no argument left and a lone [%] at
    the end are undefined in C; they and every other conversion
    specification, which the model does not cover, give [None]. *)
Fixpoint sprintf (fmt : string) (args : list Z) : option string :=
  match fmt with
  | EmptyString => Some EmptyString
  | String c rest =>
      if Ascii.eqb c "%" then
        match rest with
        | EmptyString => None
        | String k rest' =>
            if Ascii.eqb k "%" then String "%"%char <$> sprintf rest' args
            else if Ascii.eqb k "d" then
              match args with
              | a :: args' => String.append (fmt_d a) <$> sprintf rest' args'
              | [] => None
              end
            else None
        end
      else String c <$> sprintf rest args
  end.

(** ** [pidReplacement] (lines 96-118) *)

Fixpoint count_char (c : ascii) (s : string) : nat :=
  match s with
  | EmptyString => O
  | String a r => ((if Ascii.eqb a c then 1 else 0) + count_char c r)%nat
  end.

(** The [for] loop of [pidReplacement]: [x] is the loop index, [command] the
    buffer, whose length is read again at every test of the loop, and [size]
    the number of bytes of the block [command] points to.  [sprintf] writes
    its result and the closing NUL into that block; a result that does not
    fit runs past the end of the block. *)
Fixpoint pidReplacement_loop (fuel : nat) (p : Z) (size : nat) (x : nat)
    (command : string) : result string :=
  match fuel with
  | O => Fault OutOfFuel
  | S fuel' =>
      if (x <? strlen command)%nat then
        if char_is command x "$" && (x + 1 <? strlen command)%nat
           && char_is command (x + 1) "$"
        then
          let tempInput := set_char (set_char command x "%") (x + 1) "d" in
          match sprintf tempInput [p] with
          | Some command' =>
              if (strlen command' <? size)%nat
              then pidReplacement_loop fuel' p size (S x) command'
              else Fault OutOfBounds
          | None => Fault BadFormat
          end
        else pidReplacement_loop fuel' p size (S x) command
      else Ok command
  end.

(** Every iteration either advances [x] or removes two ['$'] and adds the
    digits of the pid, which bounds the number of iterations. *)
Definition pidReplacement_bound (p : Z) (command : string) : nat :=
  (strlen command + strlen (fmt_d p) * count_char "$" command + 1)%nat.

(** [pidReplacement(command)].  Its one call (line 199) hands over the
    block that line 195 allocates with [malloc(strlen(token) + 1)] and line
    196 fills with the token: the block has one byte more than the string
    has characters. *)
Definition pidReplacement (p : Z) (command : string) : result string :=
  pidReplacement_loop (pidReplacement_bound p command) p (strlen command + 1)
                      0 command.

(** ** The shell state (lines 24-62) *)

(** [struct shell].  [bgProcesses] has [BG_SLOTS] entries, [0] marking a free
    slot; [cmdLineArgs] has [MAX_ARGS] entries, [None] being [NULL]. *)
Record shell : Type := mkShell {
  pid : Z;
  exitShell : Z;
  exitStatus : Z;
  childPID : Z;
  bgProcesses : list Z;
  bgFlag : Z;
  cmdLineArgs : list (option string);
  inputFile : option string;
  outputFile : option string
}.

Definition set_exitShell (v : Z) (sh : shell) : shell :=
  mkShell (pid sh) v (exitStatus sh) (childPID sh) (bgProcesses sh) (bgFlag sh)
          (cmdLineArgs sh) (inputFile sh) (outputFile sh).
Definition set_exitStatus (v : Z) (sh : shell) : shell :=
  mkShell (pid sh) (exitShell sh) v (childPID sh) (bgProcesses sh) (bgFlag sh)
          (cmdLineArgs sh) (inputFile sh) (outputFile sh).
Definition set_childPID (v : Z) (sh : shell) : shell :=
  mkShell (pid sh) (exitShell sh) (exitStatus sh) v (bgProcesses sh) (bgFlag sh)
          (cmdLineArgs sh) (inputFile sh) (outputFile sh).
Definition set_bgProcesses (v : list Z) (sh : shell) : shell :=
  mkShell (pid sh) (exitShell sh) (exitStatus sh) (childPID sh) v (bgFlag sh)
          (cmdLineArgs sh) (inputFile sh) (outputFile sh).
Definition set_bgFlag (v : Z) (sh : shell) : shell :=
  mkShell (pid sh) (exitShell sh) (exitStatus sh) (childPID sh) (bgProcesses sh) v
          (cmdLineArgs sh) (inputFile sh) (outputFile sh).
Definition set_cmdLineArgs (v : list (option string)) (sh : shell) : shell :=
  mkShell (pid sh) (exitShell sh) (exitStatus sh) (childPID sh) (bgProcesses sh)
          (bgFlag sh) v (inputFile sh) (outputFile sh).
Definition set_inputFile (v : option string) (sh : shell) : shell :=
  mkShell (pid sh) (exitShell sh) (exitStatus sh) (childPID sh) (bgProcesses sh)
          (bgFlag sh) (cmdLineArgs sh) v (outputFile sh).
Definition set_outputFile (v : option string) (sh : shell) : shell :=
  mkShell (pid sh) (exitShell sh) (exitStatus sh) (childPID sh) (bgProcesses sh)
          (bgFlag sh) (cmdLineArgs sh) (inputFile sh) v.

(** [shellSetUp]: [calloc] zeroes the whole structure, the assignments then
    set the fields named in the source. *)
Definition shellSetUp (getpid : Z) : shell :=
  {| pid := getpid; exitShell := 0; exitStatus := 0; childPID := -5;
     bgProcesses := replicate BG_SLOTS 0; bgFlag := 0;
     cmdLineArgs := replicate MAX_ARGS None;
     inputFile := None; outputFile := None |}.

(** ** The environment and the trace *)

(** What [waitpid] finds for one process. *)
Inductive wait_result : Type :=
  | StillRunning                 (* WNOHANG only: returns 0 *)
  | Terminated (status : Z)      (* returns the pid and stores the status *)
  | WaitFailed.                  (* returns -1, nothing stored *)

(** Constants of the system headers, with their values on Linux. *)
Definition WNOHANG : Z := 1.
Definition SIGINT : Z := 2.
Definition SIGKILL : Z := 9.
Definition EXIT_FAILURE : Z := 1.

Inductive sighandler : Type := SIG_DFL | SIG_IGN.

(** Externally visible actions.  [Enter] records the entry into a function
    whose calls a property counts. *)
Inductive event : Type :=
  | Enter (fn : string)
  | Stdout (text : string)                      (* printf, write(1, ..) *)
  | Perror (prefix : option string)             (* perror(prefix) *)
  | WaitPid (p : Z) (options : Z)
  | Kill (p : Z) (signo : Z)
  | Chdir (path : option string)
  | Sigaction (signo : Z) (h : sighandler)
  | Open (path : string) (writing : bool)
  | Dup2 (target_fd : Z) (path : string)
  | Cloexec (path : string)
  | Execvp (file : option string) (argv : list string).

Abbreviation trace := (list event).

(** The process environment of the shell as far as the source consults it. *)
Record world : Type := mkWorld {
  w_getpid : Z;                            (* getpid() *)
  w_stdin : string;                        (* standard input not yet read *)
  w_clock : nat;                           (* lines read so far *)
  w_poll : nat -> Z -> wait_result;        (* waitpid(p, _, WNOHANG) at a time *)
  w_await : Z -> option Z;                 (* waitpid(p, &st, 0): the status
                                              stored, None when it fails *)
  w_uninit : Z;                            (* contents of an unset local int *)
  w_cwd : string;                          (* current working directory *)
  w_enter : string -> string -> option string;
                                           (* from a directory, the directory
                                              a path leads into, if any *)
  w_environ : gmap string string           (* the environment of getenv *)
}.

(** ** Status macros of <sys/wait.h> (glibc) *)

Definition WTERMSIG (status : Z) : Z := Z.land status 127.
Definition WEXITSTATUS (status : Z) : Z := Z.shiftr (Z.land status 65280) 8.
Definition WIFEXITED (status : Z) : bool := WTERMSIG status =? 0.
(** [((signed char) ((status & 0x7f) + 1) >> 1) > 0] *)
Definition WIFSIGNALED (status : Z) : bool :=
  let t := Z.land status 127 + 1 in
  let sc := if 128 <=? t then t - 256 else t in
  0 <? Z.shiftr sc 1.

(** ** [checkBackgroundProcessTermination] (lines 127-150) *)

Definition background_done (p status : Z) : string :=
  if WIFEXITED status
  then "Background pid " +:+ fmt_d p +:+ " is done: Exit value "
         +:+ fmt_d (WEXITSTATUS status) +:+ String newline ""
  else "Background pid " +:+ fmt_d p +:+ " is done: Terminated by signal "
         +:+ fmt_d (WTERMSIG status) +:+ String newline "".

(** State of the loop: the table, the local [childStatus], the trace. *)
Definition reap_slot (poll : Z -> wait_result) (x : nat)
    (st : list Z * Z * trace) : list Z * Z * trace :=
  let '(bg, childStatus, tr) := st in
  match bg !! x with
  | Some p =>
      if p =? 0 then st
      else
        match poll p with
        | StillRunning => (bg, childStatus, tr ++ [WaitPid p WNOHANG])
        | Terminated s =>
            (<[x := 0]> bg, s,
             tr ++ [WaitPid p WNOHANG; Stdout (background_done p s)])
        | WaitFailed =>
            (<[x := 0]> bg, childStatus,
             tr ++ [WaitPid p WNOHANG; Stdout (background_done p childStatus)])
        end
  | None => st
  end.

Definition reap_fn : string := "checkBackgroundProcessTermination".

Definition checkBackgroundProcessTermination (w : world) (sh : shell)
    : shell * trace :=
  let '(bg, _, tr) :=
    foldl (fun st x => reap_slot (w_poll w (w_clock w)) x st)
          (bgProcesses sh, w_uninit w, [Enter reap_fn]) (seq 0 BG_SLOTS) in
  (set_bgProcesses bg sh, tr).

(** ** [handle_SIGTSTP] (lines 258-274) *)

Definition enterMessage : string :=
  String newline "Entering foreground-only mode (& is now ignored)"
  +:+ String newline "".
Definition exitMessage : string :=
  String newline "Exiting foreground-only mode" +:+ String newline "".

(** [int fgFlag = 0;] (line 24).  The global is passed to the handler and
    returned by it. *)
Definition fgFlag_init : Z := 0.

Definition handle_SIGTSTP (fgFlag : Z) : Z * trace :=
  if fgFlag =? 0 then (1, [Stdout enterMessage])
  else (0, [Stdout exitMessage]).

(** ** Reading and splitting a line (lines 160-202) *)

(** [fgets(buf, size, stdin)]: at most [size - 1] characters, stopping after
    a newline; [None] is the [NULL] returned at end of file. *)
Fixpoint fgets_go (n : nat) (s : string) : string * string :=
  match n, s with
  | O, _ => (EmptyString, s)
  | S _, EmptyString => (EmptyString, EmptyString)
  | S n', String c r =>
      if Ascii.eqb c newline then (String c EmptyString, r)
      else let '(l, rest) := fgets_go n' r in (String c l, rest)
  end.

Definition fgets (size : nat) (stdin : string) : option (string * string) :=
  match stdin with
  | EmptyString => None
  | _ => Some (fgets_go (size - 1) stdin)
  end.

(** The [strtok] family with a one-character delimiter set: leading
    delimiters are skipped, the token runs to the next delimiter, which is
    overwritten with NUL, and the scan resumes behind it. *)
Fixpoint skip_delim (d : ascii) (s : string) : string :=
  match s with
  | EmptyString => EmptyString
  | String c r => if Ascii.eqb c d then skip_delim d r else s
  end.

Fixpoint until_delim (d : ascii) (s : string) : string * string :=
  match s with
  | EmptyString => (EmptyString, EmptyString)
  | String c r =>
      if Ascii.eqb c d then (EmptyString, r)
      else let '(t, rest) := until_delim d r in (String c t, rest)
  end.

(** [strtok_r(s, d, &saveptr)]: the token and the new [saveptr], or [None]
    for the [NULL] returned when only delimiters are left. *)
Definition strtok_r (s : string) (d : ascii) : option (string * string) :=
  match skip_delim d s with
  | EmptyString => None
  | String c r => Some (until_delim d (String c r))
  end.

(** The contents of the buffer [s], read from its start, after
    [strtok(s, d)] has written its NUL. *)
Fixpoint strtok_buffer (d : ascii) (s : string) : string :=
  match s with
  | EmptyString => EmptyString
  | String c r =>
      if Ascii.eqb c d then
        match skip_delim d r with
        | EmptyString => s
        | String _ _ => String c (strtok_buffer d r)
        end
      else fst (until_delim d s)
  end.

(** [for (int x = lo; x < lo + n; x++) body], with faults stopping the run. *)
Fixpoint for_range {St : Type} (x n : nat) (body : nat -> St -> result St)
    (s : St) : result St :=
  match n with
  | O => Ok s
  | S n' => s' ← body x s; for_range (S x) n' body s'
  end.

(** The prompt loop (lines 166-175).  The environment moves on by one line
    at every read.  At end of file [fgets] stores nothing and the C loop
    tests the old contents of the buffer again; the model stops there with
    [NoInput]. *)
Definition after_read (rest : string) (w : world) : world :=
  mkWorld (w_getpid w) rest (S (w_clock w)) (w_poll w) (w_await w) (w_uninit w)
          (w_cwd w) (w_enter w) (w_environ w).

Definition prompt : string := ": ".

Definition valid_input (userInput : string) : bool :=
  (1 <? strlen userInput)%nat && negb (char_is userInput 0 "#").

Fixpoint prompt_loop (fuel : nat) (w : world) (sh : shell) (tr : trace)
    : result (world * shell * string * trace) :=
  match fuel with
  | O => Fault OutOfFuel
  | S fuel' =>
      let '(sh1, tr1) := checkBackgroundProcessTermination w sh in
      let tr2 := tr ++ tr1 ++ [Stdout prompt] in
      match fgets MAX_INPUT (w_stdin w) with
      | None => Fault NoInput
      | Some (userInput, rest) =>
          if valid_input userInput
          then Ok (after_read rest w, sh1, userInput, tr2)
          else prompt_loop fuel' (after_read rest w) sh1 tr2
      end
  end.

(** The [while] loop over the remaining tokens (lines 193-202). *)
Fixpoint token_loop (fuel : nat) (p : Z) (saveptr : string) (cmdNumber : nat)
    (args : list (option string)) : result (nat * list (option string)) :=
  match fuel with
  | O => Fault OutOfFuel
  | S fuel' =>
      match strtok_r saveptr " " with
      | None => Ok (cmdNumber, args)
      | Some (token, saveptr') =>
          if (cmdNumber <? length args)%nat then
            expanded ← pidReplacement p token;
            token_loop fuel' p saveptr' (S cmdNumber)
                       (<[cmdNumber := Some expanded]> args)
          else Fault OutOfBounds
      end
  end.

(** One iteration of the scan for [<], [>] and [&] (lines 207-240); the
    state is the shell and the local [IOstart]. *)
Definition next_IOstart (IOstart x : nat) : nat :=
  if (IOstart =? 0)%nat || (x <? IOstart)%nat then x else IOstart.

Definition redirect_step (x : nat) (st : shell * nat) : result (shell * nat) :=
  let '(sh, IOstart) := st in
  match cmdLineArgs sh !! x with
  | None => Fault OutOfBounds
  | Some None => Fault NullDeref
  | Some (Some a) =>
      if streq a "<" then
        match cmdLineArgs sh !! (x + 1)%nat with
        | None => Fault OutOfBounds
        | Some None => Fault NullDeref
        | Some (Some f) => Ok (set_inputFile (Some f) sh, next_IOstart IOstart x)
        end
      else if streq a ">" then
        match cmdLineArgs sh !! (x + 1)%nat with
        | None => Fault OutOfBounds
        | Some None => Fault NullDeref
        | Some (Some f) => Ok (set_outputFile (Some f) sh, next_IOstart IOstart x)
        end
      else if streq a "&" then
        match cmdLineArgs sh !! (x + 1)%nat with
        | None => Fault OutOfBounds
        | Some None =>
            Ok (set_cmdLineArgs (<[x := None]> (cmdLineArgs sh)) (set_bgFlag 1 sh),
                IOstart)
        | Some (Some _) => Ok (sh, IOstart)
        end
      else Ok (sh, IOstart)
  end.

(** The clearing loop (lines 243-250). *)
Definition clear_step (x : nat) (args : list (option string))
    : result (list (option string)) :=
  match args !! x with
  | None => Fault OutOfBounds
  | Some None => Ok args
  | Some (Some _) => Ok (<[x := None]> args)
  end.

Definition clear_from (IOstart : nat) (args : list (option string))
    : result (list (option string)) :=
  if (IOstart =? 0)%nat then Ok args
  else for_range IOstart (MAX_ARGS - IOstart) clear_step args.

(** Lines 204-250: the scan followed by the clearing loop. *)
Definition extract_redirection (cmdNumber : nat) (sh : shell) : result shell :=
  '(sh1, IOstart) ← for_range 0 cmdNumber redirect_step (sh, 0%nat);
  args' ← clear_from IOstart (cmdLineArgs sh1);
  Ok (set_cmdLineArgs args' sh1).

(** Lines 177-250: everything after a valid line has been read. *)
Definition parse_line (p : Z) (userInput : string) (sh : shell) : result shell :=
  let userInput := strtok_buffer newline userInput in
  match strtok_r userInput " " with
  | None => Fault NullDeref
  | Some (token, saveptr) =>
      if (0 <? length (cmdLineArgs sh))%nat then
        '(cmdNumber, args) ←
          token_loop (S (strlen saveptr)) p saveptr 1
                     (<[0%nat := Some token]> (cmdLineArgs sh));
        extract_redirection cmdNumber (set_cmdLineArgs args sh)
      else Fault OutOfBounds
  end.

(** [getCommandLineArguments] (lines 160-251). *)
Definition getCommandLineArguments (w : world) (sh : shell)
    : result (world * shell * trace) :=
  '(w', sh1, userInput, tr) ←
    prompt_loop (S (strlen (w_stdin w))) w sh [];
  sh2 ← parse_line (w_getpid w) userInput sh1;
  Ok (w', sh2, tr).

(** The vector [execvp] and the dispatch in [main] see: the entries before
    the first [NULL]. *)
Fixpoint argv_of (args : list (option string)) : list string :=
  match args with
  | Some a :: r => a :: argv_of r
  | _ => []
  end.

(** ** Built-in commands (lines 280-327) *)

(** [exitSmallShell]: one [kill] per occupied slot, then the exit flag. *)
Definition exitSmallShell (sh : shell) : shell * trace :=
  (set_exitShell 1 sh,
   omap (fun p => if p =? 0 then None else Some (Kill p SIGKILL))
        (take BG_SLOTS (bgProcesses sh))).

(** [printShellStatus] *)
Definition status_text (status : Z) : string :=
  if status =? 0 then "exit value " +:+ fmt_d 0 +:+ String newline ""
  else if WIFEXITED status
  then "exit value " +:+ fmt_d (WEXITSTATUS status) +:+ String newline ""
  else "terminated by signal " +:+ fmt_d (WTERMSIG status) +:+ String newline "".

Definition printShellStatus (sh : shell) : shell * trace :=
  (sh, [Stdout (status_text (exitStatus sh))]).

(** [chdir(path)]: the return value and the new environment.  A [NULL] path
    and a path that cannot be entered fail with [-1] and leave the working
    directory as it was (POSIX). *)
Definition set_cwd (d : string) (w : world) : world :=
  mkWorld (w_getpid w) (w_stdin w) (w_clock w) (w_poll w) (w_await w)
          (w_uninit w) d (w_enter w) (w_environ w).

Definition chdir (path : option string) (w : world) : Z * world :=
  match path with
  | None => (-1, w)
  | Some p =>
      match w_enter w (w_cwd w) p with
      | Some d => (0, set_cwd d w)
      | None => (-1, w)
      end
  end.

Definition getenv (name : string) (w : world) : option string :=
  w_environ w !! name.

(** [changeShellDirectory]: the value of [chdir] is dropped. *)
Definition changeShellDirectory (w : world) (sh : shell)
    : result (world * shell * trace) :=
  match cmdLineArgs sh !! 1%nat with
  | None => Fault OutOfBounds
  | Some (Some path) =>
      Ok ((chdir (Some path) w).2, sh, [Chdir (Some path)])
  | Some None =>
      let home := getenv "HOME" w in
      Ok ((chdir home w).2, sh, [Chdir home])
  end.

(** ** [createNewProcess] (lines 334-448) *)

(** What the child process meets. *)
Record child_env : Type := mkChildEnv {
  c_open_rd : string -> bool;   (* open(path, O_RDONLY) <> -1 *)
  c_open_wr : string -> bool;   (* open(path, O_WRONLY|O_CREAT|O_TRUNC, 0644) <> -1 *)
  c_dup2 : Z -> bool;           (* dup2(fd, target) <> -1 *)
  c_exec : option string -> list string -> bool
                                (* execvp replaces the process image *)
}.

(** How the child branch ends: with [exit(status)], or inside the program
    that [execvp] started. *)
Inductive child_end : Type :=
  | Exited (status : Z)
  | Replaced.

(** [printf("%s", p)] with [p == NULL] prints [(null)] in glibc. *)
Definition show_name (p : option string) : string := default "(null)" p.

Definition dev_null : string := "/dev/null".

(** Lines 356-382: standard input.  [None] carries on to the next step,
    [Some status] is the [exit(status)] taken. *)
Definition redirect_stdin (ce : child_env) (sh : shell)
    : trace * option Z :=
  if bool_decide (inputFile sh ≠ None) || (bgFlag sh =? 1) then
    let path := default dev_null (inputFile sh) in
    if c_open_rd ce path then
      if c_dup2 ce 0 then ([Open path false; Dup2 0 path; Cloexec path], None)
      else ([Open path false; Dup2 0 path;
             Perror (Some "Unable to reroute stdin to requested file")], Some 2)
    else ([Open path false;
           Stdout ("Cannot open " +:+ show_name (inputFile sh) +:+ " for input"
                   +:+ String newline "")], Some 1)
  else ([], None).

(** Lines 385-410: standard output. *)
Definition redirect_stdout (ce : child_env) (sh : shell)
    : trace * option Z :=
  if bool_decide (outputFile sh ≠ None) || (bgFlag sh =? 1) then
    let path := default dev_null (outputFile sh) in
    if c_open_wr ce path then
      if c_dup2 ce 1 then ([Open path true; Dup2 1 path; Cloexec path], None)
      else ([Open path true; Dup2 1 path;
             Perror (Some "Unable to reroute stdout to requested file")], Some 2)
    else ([Open path true;
           Stdout ("Cannot open " +:+ show_name (outputFile sh) +:+ " for input"
                   +:+ String newline "")], Some 1)
  else ([], None).

(** Lines 413-416. *)
Definition run_execvp (ce : child_env) (sh : shell) : trace * child_end :=
  let file := mjoin (head (cmdLineArgs sh)) in
  let argv := argv_of (cmdLineArgs sh) in
  if c_exec ce file argv then ([Execvp file argv], Replaced)
  else ([Execvp file argv; Perror file], Exited EXIT_FAILURE).

(** The branch [case 0] of the [switch]. *)
Definition child_branch (ce : child_env) (fgFlag : Z) (sh : shell)
    : trace * child_end :=
  let tr0 :=
    if (bgFlag sh =? 0) || (fgFlag =? 1) then [Sigaction SIGINT SIG_DFL] else [] in
  match redirect_stdin ce sh with
  | (tr1, Some status) => (tr0 ++ tr1, Exited status)
  | (tr1, None) =>
      match redirect_stdout ce sh with
      | (tr2, Some status) => (tr0 ++ tr1 ++ tr2, Exited status)
      | (tr2, None) =>
          let '(tr3, fin) := run_execvp ce sh in
          (tr0 ++ tr1 ++ tr2 ++ tr3, fin)
      end
  end.

(** Lines 426-431: the first slot holding [0] takes the pid; the loop ends
    without a store when there is none. *)
Fixpoint first_free (x n : nat) (bg : list Z) : option nat :=
  match n with
  | O => None
  | S n' =>
      match bg !! x with
      | Some v => if v =? 0 then Some x else first_free (S x) n' bg
      | None => None
      end
  end.

Definition register (p : Z) (bg : list Z) : list Z :=
  match first_free 0 BG_SLOTS bg with
  | Some x => <[x := p]> bg
  | None => bg
  end.

Definition background_started (p : Z) : string :=
  "Background PID is " +:+ fmt_d p +:+ String newline "".

Definition terminated_by (status : Z) : string :=
  "terminated by signal " +:+ fmt_d (WTERMSIG status) +:+ String newline "".

(** The branch [default] of the [switch]; [childPID] already holds the
    value of [fork]. *)
Definition parent_branch (w : world) (fgFlag : Z) (sh : shell) : shell * trace :=
  if (bgFlag sh =? 1) && (fgFlag =? 0) then
    (set_bgProcesses (register (childPID sh) (bgProcesses sh)) sh,
     [Stdout (background_started (childPID sh))])
  else
    let sh' :=
      match w_await w (childPID sh) with
      | Some status => set_exitStatus status sh
      | None => sh
      end in
    (sh', WaitPid (childPID sh) 0 ::
          if WIFSIGNALED (exitStatus sh')
          then [Stdout (terminated_by (exitStatus sh'))] else []).

(** The three processes' views of one call of [createNewProcess]. *)
Inductive spawned : Type :=
  | ForkFailed (tr : trace)                    (* the shell has left with exit(1) *)
  | InChild (tr : trace) (fin : child_end)
  | InParent (sh : shell) (tr : trace).

Definition createNewProcess (w : world) (ce : child_env) (fgFlag : Z)
    (fork : Z) (sh : shell) : spawned :=
  let sh := set_childPID fork sh in
  if fork =? -1 then
    ForkFailed [Perror (Some ("fork() failed!" +:+ String newline ""))]
  else if fork =? 0 then
    let '(tr, fin) := child_branch ce fgFlag sh in InChild tr fin
  else
    let '(sh', tr) := parent_branch w fgFlag sh in InParent sh' tr.

(** ** [commandLineArgumentReset] (lines 70-90) and the loop of [main] *)

(** [memset(a, '\0', n)] on an array [a] of pointers of [ptr_size] bytes
    each, for a [ptr_size] that divides [n]: the [n / ptr_size] entries that
    make up the first [n] bytes become [NULL], the entries behind them are
    not written. *)
Definition memset_pointers (ptr_size n : nat) (a : list (option string))
    : list (option string) :=
  replicate (min (n / ptr_size) (length a)) None ++ drop (n / ptr_size) a.

(** [commandLineArgumentReset].  The third argument of [memset] is
    [MAX_ARGS], a number of bytes.  The calls of [free] give heap blocks
    back and leave the pointers stored in the array as they are; the two
    file names are copies of their own (lines 214 and 226). *)
Definition commandLineArgumentReset (ptr_size : nat) (sh : shell) : shell :=
  set_bgFlag 0
    (set_outputFile None
       (set_inputFile None
          (set_cmdLineArgs
             (memset_pointers ptr_size MAX_ARGS (cmdLineArgs sh)) sh))).

(** How one pass through the loop of [main] (lines 472-499) ends for the
    process that runs it. *)
Inductive pass : Type :=
  | Looping (w : world) (sh : shell) (tr : trace)
                        (* back at the loop test *)
  | ShellLeft (tr : trace)
                        (* the shell has left with exit(1): fork failed *)
  | ChildEnd (tr : trace) (fin : child_end).
                        (* the process is the child; [tr] is what it did *)

(** Lines 476-496: the comparison of the first argument with the names of
    the built-in commands.  [fork] is what [fork()] returns if it is
    called. *)
Definition main_dispatch (w : world) (ce : child_env) (fgFlag fork : Z)
    (sh : shell) : result pass :=
  match cmdLineArgs sh !! 0%nat with
  | None => Fault OutOfBounds
  | Some None => Fault NullDeref
  | Some (Some c) =>
      if streq c "exit" then
        let '(sh', tr) := exitSmallShell sh in Ok (Looping w sh' tr)
      else if streq c "status" then
        let '(sh', tr) := printShellStatus sh in Ok (Looping w sh' tr)
      else if streq c "cd" then
        '(w', sh', tr) ← changeShellDirectory w sh;
        Ok (Looping w' sh' tr)
      else
        Ok (match createNewProcess w ce fgFlag fork sh with
            | ForkFailed tr => ShellLeft tr
            | InChild tr fin => ChildEnd tr fin
            | InParent sh' tr => Looping w sh' tr
            end)
  end.

(** Lines 472-499: one pass through the loop. *)
Definition main_pass (ptr_size : nat) (w : world) (ce : child_env)
    (fgFlag fork : Z) (sh : shell) : result pass :=
  '(w1, sh1, tr1) ← getCommandLineArguments w sh;
  out ← main_dispatch w1 ce fgFlag fork sh1;
  Ok (match out with
      | Looping w2 sh2 tr2 =>
          Looping w2 (commandLineArgumentReset ptr_size sh2) (tr1 ++ tr2)
      | ShellLeft tr2 => ShellLeft (tr1 ++ tr2)
      | ChildEnd tr2 fin => ChildEnd tr2 fin
      end).

(** ** Two deliveries of the mode signal *)

Definition deliver_twice (fgFlag : Z) : Z * trace :=
  let '(f1, t1) := handle_SIGTSTP fgFlag in
  let '(f2, t2) := handle_SIGTSTP f1 in
  (f2, t1 ++ t2).

(** The values the flag can take: it starts at [fgFlag_init] and changes
    only in the handler. *)
Inductive mode_reachable : Z -> Prop :=
  | mode_init : mode_reachable fgFlag_init
  | mode_signal f : mode_reachable f -> mode_reachable (handle_SIGTSTP f).1.

Definition NORMAL : Z := 0.
Definition FOREGROUND_ONLY : Z := 1.

(** ** Helpers to write concrete inputs *)

(** A line as typed, with its newline. *)
Definition line (s : string) : string := s +:+ String newline "".

(** An environment with the given pid and input, no child ever changing
    state, the root as working directory, and an empty environment block. *)
Definition quiet_world (p : Z) (input : string) : world :=
  {| w_getpid := p; w_stdin := input; w_clock := 0;
     w_poll := fun _ _ => StillRunning; w_await := fun _ => Some 0;
     w_uninit := 0; w_cwd := "/"; w_enter := fun _ _ => None;
     w_environ := ∅ |}.

(** What the parser hands on: the exec vector, the two file names and the
    background flag. *)
Definition parsed (r : result (world * shell * trace))
    : result (list string * option string * option string * Z) :=
  '(_, sh, _) ← r;
  Ok (argv_of (cmdLineArgs sh), inputFile sh, outputFile sh, bgFlag sh).

Definition read_command (p : Z) (input : string)
    : result (list string * option string * option string * Z) :=
  parsed (getCommandLineArguments (quiet_world p input) (shellSetUp p)).

(** The shell as the parser leaves it after the first valid line. *)
Definition shell_after (p : Z) (input : string) : shell :=
  match getCommandLineArguments (quiet_world p input) (shellSetUp p) with
  | Ok (_, sh, _) => sh
  | Fault _ => shellSetUp p
  end.

(** A child environment in which every call succeeds, and variants. *)
Definition all_succeed : child_env :=
  {| c_open_rd := fun _ => true; c_open_wr := fun _ => true;
     c_dup2 := fun _ => true; c_exec := fun _ _ => true |}.

Definition unreadable (path : string) : child_env :=
  {| c_open_rd := fun q => negb (streq q path); c_open_wr := fun _ => true;
     c_dup2 := fun _ => true; c_exec := fun _ _ => true |}.

Definition unknown_program (name : string) : child_env :=
  {| c_open_rd := fun _ => true; c_open_wr := fun _ => true;
     c_dup2 := fun _ => true;
     c_exec := fun file _ => negb (bool_decide (file = Some name)) |}.

(** ** Vocabulary of the claims *)

(** Text shown to the user, on either stream. *)
Definition user_output (e : event) : bool :=
  match e with
  | Stdout _ | Perror _ => true
  | _ => false
  end.

Definition is_execvp (e : event) : bool :=
  match e with
  | Execvp _ _ => true
  | _ => false
  end.

(** [cd] cannot succeed: the path given cannot be entered, or none is given
    and [HOME] is not set. *)
Definition cd_cannot_enter (w : world) (sh : shell) : Prop :=
  (exists path, cmdLineArgs sh !! 1%nat = Some (Some path)
                /\ w_enter w (w_cwd w) path = None)
  \/ (cmdLineArgs sh !! 1%nat = Some None /\ getenv "HOME" w = None).

(** The two failure classes of the child. *)
Inductive child_failure : Type := OpenFailure | ExecFailure.

(** The line the user reads when the file [f] of a redirection cannot be
    opened; it says [for input] for an output file as well. *)
Definition cannot_open (f : string) : string :=
  "Cannot open " +:+ f +:+ " for input" +:+ String newline "".

(** The file of the redirection that fails first. *)
Definition unopened (ce : child_env) (sh : shell) (f : string) : Prop :=
  (inputFile sh = Some f /\ c_open_rd ce f = false)
  \/ ((redirect_stdin ce sh).2 = None
      /\ outputFile sh = Some f /\ c_open_wr ce f = false).

Definition fails_with (ce : child_env) (sh : shell) (k : child_failure) : Prop :=
  match k with
  | OpenFailure =>
      (exists f, inputFile sh = Some f /\ c_open_rd ce f = false)
      \/ ((redirect_stdin ce sh).2 = None
          /\ exists g, outputFile sh = Some g /\ c_open_wr ce g = false)
  | ExecFailure =>
      (redirect_stdin ce sh).2 = None /\ (redirect_stdout ce sh).2 = None
      /\ c_exec ce (mjoin (head (cmdLineArgs sh))) (argv_of (cmdLineArgs sh)) = false
  end.

(** A table without a free slot. *)
Definition full_table : list Z := (fun i => 1000 + Z.of_nat i) <$> seq 0 BG_SLOTS.

(** What [checkBackgroundProcessTermination] may add to the trace after its
    entry: polls with [WNOHANG] and completion notices. *)
Definition reap_event (e : event) : Prop :=
  match e with
  | WaitPid _ options => options = WNOHANG
  | Stdout text => exists p status, text = background_done p status
  | _ => False
  end.

(** Entries into the reap operation and prompts. *)
Definition reap_or_prompt (e : event) : bool :=
  match e with
  | Enter fn => streq fn reap_fn
  | Stdout text => streq text prompt
  | _ => false
  end.



(** The trace of a finished prompt loop. *)
Definition prompt_trace (r : result (world * shell * string * trace)) : trace :=
  match r with
  | Ok (_, _, _, tr) => tr
  | Fault _ => []
  end.

(** An environment in which process 500 has exited with value 1 and process
    501 was killed by signal 15, read before the lines of an empty line, a
    comment and [ls]. *)
Definition busy_world : world :=
  {| w_getpid := 4242;
     w_stdin := line "" +:+ line "# wait" +:+ line "ls";
     w_clock := 0;
     w_poll := fun _ p => if p =? 500 then Terminated 256
                          else if p =? 501 then Terminated 15
                          else StillRunning;
     w_await := fun _ => Some 0;
     w_uninit := 0; w_cwd := "/"; w_enter := fun _ _ => None;
     w_environ := ∅ |}.

Definition busy_shell : shell :=
  set_bgProcesses (<[3%nat := 500]> (<[7%nat := 501]> (<[9%nat := 502]>
                     (replicate BG_SLOTS 0))))
                  (shellSetUp 4242).

(** A wait that blocks: [waitpid] without [WNOHANG]. *)
Definition blocking_wait (e : event) : bool :=
  match e with
  | WaitPid _ options => options =? 0
  | _ => false
  end.

(** Steps of the shell that are not the wait for a foreground child: the
    built-ins, the registration of a background job, reaping, reading the
    next command, the reset after a command, and, made of these, a whole
    pass through the loop of [main] in which the shell does not wait for a
    child. *)
Inductive quiet_step : shell -> shell -> Prop :=
  | quiet_cd w sh w' sh' tr :
      changeShellDirectory w sh = Ok (w', sh', tr) -> quiet_step sh sh'
  | quiet_status sh :
      quiet_step sh (printShellStatus sh).1
  | quiet_exit sh :
      quiet_step sh (exitSmallShell sh).1
  | quiet_register w fork sh :
      bgFlag sh = 1 ->
      quiet_step sh (parent_branch w NORMAL (set_childPID fork sh)).1
  | quiet_reap w sh :
      quiet_step sh (checkBackgroundProcessTermination w sh).1
  | quiet_read w sh w' sh' tr :
      getCommandLineArguments w sh = Ok (w', sh', tr) -> quiet_step sh sh'
  | quiet_reset ptr_size sh :
      quiet_step sh (commandLineArgumentReset ptr_size sh)
  | quiet_pass ptr_size w ce fgFlag fork sh w' sh' tr :
      main_pass ptr_size w ce fgFlag fork sh = Ok (Looping w' sh' tr) ->
      Forall (fun e => blocking_wait e = false) tr ->
      quiet_step sh sh'.

(** The state and the environment a pass hands to the next one. *)
Definition pass_shell (r : result pass) : shell :=
  match r with
  | Ok (Looping _ sh _) => sh
  | _ => shellSetUp 0
  end.

Definition pass_world (r : result pass) : world :=
  match r with
  | Ok (Looping w _ _) => w
  | _ => quiet_world 0 ""
  end.

Definition pass_trace (r : result pass) : trace :=
  match r with
  | Ok (Looping _ _ tr) => tr
  | _ => []
  end.

(** A session: [false], then [status], then [sleep 5 &]; a child waited for
    has left with exit value 1, no background job has ended yet. *)
Definition session_world : world :=
  {| w_getpid := 4242;
     w_stdin := line "false" +:+ line "status" +:+ line "sleep 5 &";
     w_clock := 0;
     w_poll := fun _ _ => StillRunning;
     w_await := fun _ => Some 256;
     w_uninit := 0; w_cwd := "/"; w_enter := fun _ _ => None;
     w_environ := ∅ |}.

(** The three passes of the session, with pointers of eight bytes; the
    children get the pids 700 and 701 (the second pass calls no [fork]). *)
Definition session_pass1 : result pass :=
  main_pass 8 session_world all_succeed NORMAL 700 (shellSetUp 4242).

Definition session_pass2 : result pass :=
  main_pass 8 (pass_world session_pass1) all_succeed NORMAL 700
            (pass_shell session_pass1).

Definition session_pass3 : result pass :=
  main_pass 8 (pass_world session_pass2) all_succeed NORMAL 701
            (pass_shell session_pass2).

(** The string holds two [$] side by side somewhere. *)
Fixpoint has_pair (s : string) : bool :=
  match s with
  | EmptyString => false
  | String c r => (Ascii.eqb c "$" && char_is r 0 "$") || has_pair r
  end.

(** The expansion of [token] does not fit its block of [strlen(token) + 1]
    bytes: there is a [$$] to replace, and the decimal pid is longer than
    the two characters it replaces. *)
Definition overruns (p : Z) (token : string) : bool :=
  has_pair token && (2 <? strlen (fmt_d p))%nat.


(** ** The expansion in the words of the specification *)

(** Read from the left, every [$$] becomes the decimal pid and every other
    character stays; a [$] without a partner stays as well. *)
Fixpoint expand (p : Z) (s : string) : string :=
  match s with
  | EmptyString => EmptyString
  | String c r =>
      match r with
      | EmptyString => String c EmptyString
      | String c2 r2 =>
          if Ascii.eqb c "$" && Ascii.eqb c2 "$"
          then fmt_d p +:+ expand p r2
          else String c (expand p r)
      end
  end.

(** No character of [s] is [c]. *)
Fixpoint lacks (c : ascii) (s : string) : Prop :=
  match s with
  | EmptyString => True
  | String a r => a <> c /\ lacks c r
  end.

(** [c] is not one of the characters [%d] writes for a natural number. *)
Definition not_digit (c : ascii) : Prop := forall x, pretty_N_char x <> c.

(** A run of [n] spaces. *)
Fixpoint blanks (n : nat) : string :=
  match n with
  | O => EmptyString
  | S m => String " " (blanks m)
  end.

(** ** The extractor in the words of the specification *)

Definition is_redirect (t : string) : bool := streq t "<" || streq t ">".

(** Position of the first [<] or [>]. *)
Fixpoint first_redirect (toks : list string) : option nat :=
  match toks with
  | [] => None
  | t :: r => if is_redirect t then Some O else S <$> first_redirect r
  end.

(** Where the exec vector ends: at the first redirection operator, else at
    an [&] in last position, else behind the last token. *)
Definition cut_point (toks : list string) : nat :=
  match first_redirect toks with
  | Some i => i
  | None =>
      if bool_decide (last toks = Some "&") then (length toks - 1)%nat
      else length toks
  end.

Definition exec_vector (toks : list string) : list string :=
  take (cut_point toks) toks.

(** [cmdLineArgs] with the tokens stored from index 0 and [NULL] behind. *)
Definition loaded (toks : list string) : list (option string) :=
  (Some <$> toks) ++ replicate (MAX_ARGS - length toks) None.

(** Token sequences of the form the header of the source gives: a command
    first, every [<] and [>] followed by a file name, and room for the
    closing [NULL]. *)
Definition command_first (toks : list string) : Prop :=
  (0 < length toks < MAX_ARGS)%nat
  /\ (forall t, head toks = Some t -> is_redirect t = false)
  /\ (forall t, last toks = Some t -> is_redirect t = false).

(** What holds when the scan for operators reaches index [y]: the array is
    as loaded, but for an [&] in last position once it has been passed, and
    [IOstart] is the position of the first operator seen, [0] for none. *)
Definition scanned (toks : list string) (y : nat) (st : shell * nat) : Prop :=
  cmdLineArgs st.1
  = (if bool_decide (y = length toks /\ last toks = Some "&")
     then <[(length toks - 1)%nat := None]> (loaded toks)
     else loaded toks)
  /\ st.2 = default O (first_redirect (take y toks)).

(** ** Further vocabulary: signals, statuses and built-ins *)

(** [n] deliveries of the mode signal, one after the other. *)
Fixpoint deliveries (n : nat) (fgFlag : Z) : Z * trace :=
  match n with
  | O => (fgFlag, [])
  | S m =>
      let '(f1, t1) := handle_SIGTSTP fgFlag in
      let '(f2, t2) := deliveries m f1 in
      (f2, t1 ++ t2)
  end.

(** The notice of the [i]-th delivery (from 0) when the flag started at [f]. *)
Definition notice_at (f : Z) (i : nat) : event :=
  if (f + Z.of_nat i) mod 2 =? 0 then Stdout enterMessage else Stdout exitMessage.

(** How a child ended, and the status [waitpid] stores for it on Linux:
    the exit value in bits 8 to 15, or the signal number in bits 0 to 6. *)
Inductive ended : Type :=
  | ByExit (value : Z)
  | BySignal (signo : Z).

Definition wait_status (e : ended) : Z :=
  match e with
  | ByExit value => value * 256
  | BySignal signo => signo
  end.

Definition ended_ok (e : ended) : bool :=
  match e with
  | ByExit value => (0 <=? value) && (value <? 256)
  | BySignal signo => (1 <=? signo) && (signo <? 127)
  end.

(** The two texts of [printShellStatus] for a child that ended as [e]. *)
Definition ended_text (e : ended) : string :=
  match e with
  | ByExit value => "exit value " +:+ fmt_d value +:+ String newline ""
  | BySignal signo => "terminated by signal " +:+ fmt_d signo +:+ String newline ""
  end.

(** The two texts of a background completion notice. *)
Definition done_text (p : Z) (e : ended) : string :=
  match e with
  | ByExit value =>
      "Background pid " +:+ fmt_d p +:+ " is done: Exit value "
      +:+ fmt_d value +:+ String newline ""
  | BySignal signo =>
      "Background pid " +:+ fmt_d p +:+ " is done: Terminated by signal "
      +:+ fmt_d signo +:+ String newline ""
  end.

(** What the status macros should find in the status of [e]. *)
Definition decodes (e : ended) : bool :=
  match e with
  | ByExit value =>
      WIFEXITED (wait_status e) && (WEXITSTATUS (wait_status e) =? value)
      && negb (WIFSIGNALED (wait_status e))
      && (negb (wait_status e =? 0) || (value =? 0))
  | BySignal signo =>
      negb (WIFEXITED (wait_status e)) && (WTERMSIG (wait_status e) =? signo)
      && WIFSIGNALED (wait_status e) && negb (wait_status e =? 0)
  end.

(** All the ways a child can end that [ended_ok] admits. *)
Definition all_ended : list ended :=
  (ByExit ∘ Z.of_nat <$> seq 0 256) ++ (BySignal ∘ Z.of_nat <$> seq 1 126).

Definition is_kill (e : event) : bool :=
  match e with
  | Kill _ _ => true
  | _ => false
  end.

(** An environment in which the foreground child is killed by signal 15. *)
Definition killed_world : world :=
  {| w_getpid := 4242; w_stdin := ""; w_clock := 0;
     w_poll := fun _ _ => StillRunning; w_await := fun _ => Some 15;
     w_uninit := 0; w_cwd := "/"; w_enter := fun _ _ => None;
     w_environ := ∅ |}.

(** ** Further vocabulary: the job table *)

(** A slot after one pass of the reap loop: a free slot stays free, a
    running job stays, anything else is cleared. *)
Definition slot_after (poll : Z -> wait_result) (p : Z) : Z :=
  if p =? 0 then 0
  else match poll p with
       | StillRunning => p
       | _ => 0
       end.

(** An environment in which [waitpid] fails for process 600. *)
Definition failing_world : world :=
  {| w_getpid := 4242; w_stdin := ""; w_clock := 0;
     w_poll := fun _ p => if p =? 600 then WaitFailed
                          else if p =? 777 then Terminated 0
                          else StillRunning;
     w_await := fun _ => Some 0;
     w_uninit := 0; w_cwd := "/"; w_enter := fun _ _ => None;
     w_environ := ∅ |}.

(** A shell with jobs in slots 0 and 1, asked to start a background job. *)
Definition two_jobs_shell : shell :=
  set_childPID 777
    (set_bgProcesses (<[0%nat := 500]> (<[1%nat := 600]> (replicate BG_SLOTS 0)))
                     (shell_after 4242 (line "sleep 5 &"))).

(** An environment in which process 777 has ended with exit value 0 and
    every other process is still running. *)
Definition quiet_then_done : world :=
  {| w_getpid := 4242; w_stdin := ""; w_clock := 0;
     w_poll := fun _ p => if p =? 777 then Terminated 0 else StillRunning;
     w_await := fun _ => Some 0;
     w_uninit := 0; w_cwd := "/"; w_enter := fun _ _ => None;
     w_environ := ∅ |}.

(** ** Further vocabulary: the child *)

Definition is_sigaction (e : event) : bool :=
  match e with
  | Sigaction _ _ => true
  | _ => false
  end.

(** The file the child puts on standard input, if any: the one named on the
    line, else the null device for a background request. *)
Definition stdin_source (sh : shell) : option string :=
  match inputFile sh with
  | Some f => Some f
  | None => if bgFlag sh =? 1 then Some dev_null else None
  end.

Definition stdout_target (sh : shell) : option string :=
  match outputFile sh with
  | Some f => Some f
  | None => if bgFlag sh =? 1 then Some dev_null else None
  end.

(** What an event of the child does to a file: [Some (path, writing)]. *)
Definition touches (e : event) : option (string * bool) :=
  match e with
  | Open path writing => Some (path, writing)
  | Dup2 fd path => Some (path, negb (fd =? 0))
  | Cloexec path => None
  | _ => None
  end.

(** The event opens a file for writing or starts a program. *)
Definition writes_or_execs (e : event) : bool :=
  match e with
  | Open _ true => true
  | Execvp _ _ => true
  | _ => false
  end.

(** A child environment in which [dup2] fails. *)
Definition no_dup2 : child_env :=
  {| c_open_rd := fun _ => true; c_open_wr := fun _ => true;
     c_dup2 := fun _ => false; c_exec := fun _ _ => true |}.

(** ** Further vocabulary: tokens and lines *)



(** The file name an operator [op] leaves behind on a token sequence: the
    token after the last [op], or what was there before when there is no
    [op]. *)
Definition names_target (op : string) (toks : list string)
    (before after : option string) : Prop :=
  (exists i, toks !! i = Some op
             /\ (forall j, (i < j)%nat -> toks !! j <> Some op)
             /\ after = toks !! (i + 1)%nat)
  \/ ((forall j, toks !! j <> Some op) /\ after = before).

(** The same, computed along the scan: the value after the first [y]
    tokens have been looked at. *)
Fixpoint target_upto (op : string) (toks : list string) (y : nat)
    (before : option string) : option string :=
  match y with
  | O => before
  | S y' =>
      match toks !! y' with
      | Some t => if streq t op then toks !! (y' + 1)%nat
                  else target_upto op toks y' before
      | None => target_upto op toks y' before
      end
  end.

(** The fields the scan sets, when it has reached index [y], started on the
    shell [sh0]. *)
Definition scanned_fields (toks : list string) (sh0 : shell) (y : nat)
    (st : shell * nat) : Prop :=
  inputFile st.1 = target_upto "<" toks y (inputFile sh0)
  /\ outputFile st.1 = target_upto ">" toks y (outputFile sh0)
  /\ bgFlag st.1
     = if bool_decide (y = length toks /\ last toks = Some "&") then 1
       else bgFlag sh0.

(** ** Vocabulary for the prompt loop *)






(** ** Vocabulary for the loop of [main] *)




(** * Properties *)

(** ** Sanity checks of the embedding *)

Example pidReplacement_two_occurrences :
  pidReplacement 42 "a$$b$$$" = Ok "a42b42$".
Proof. vm_compute. reflexivity. Qed.

Example pidReplacement_shrinks : pidReplacement 7 "a$$b$$$" = Ok "a7b7$".
Proof. vm_compute. reflexivity. Qed.

Example pidReplacement_overrun :
  pidReplacement 4242 "aaaaaaaaaaaaaaaaaaaaa$$" = Fault OutOfBounds.
Proof. vm_compute. reflexivity. Qed.

Example pidReplacement_percent_pair : pidReplacement 7 "%%$$$$" = Ok "%7$$".
Proof. vm_compute. reflexivity. Qed.

Example pidReplacement_conversion : pidReplacement 7 "%d$$" = Fault BadFormat.
Proof. vm_compute. reflexivity. Qed.

Example read_full_command :
  read_command 42 (line "ls -l a$$b < in > out &")
  = Ok (["ls"; "-l"; "a42b"], Some "in", Some "out", 1).
Proof. vm_compute. reflexivity. Qed.

Example read_skips_comment_and_empty :
  read_command 4242 (line "" +:+ line "#note" +:+ line "ls &" +:+ "more")
  = Ok (["ls"], None, None, 1).
Proof. vm_compute. reflexivity. Qed.

Example read_inner_ampersand :
  read_command 4242 (line "a & b") = Ok (["a"; "&"; "b"], None, None, 0).
Proof. vm_compute. reflexivity. Qed.

(** ** The mode controller *)

Lemma mode_reachable_two_states f :
  mode_reachable f -> f = NORMAL \/ f = FOREGROUND_ONLY.
Proof.
  induction 1 as [|f _ [-> | ->]]; [left | right | left]; reflexivity.
Qed.

Lemma handle_SIGTSTP_flips f :
  f = NORMAL \/ f = FOREGROUND_ONLY -> (handle_SIGTSTP f).1 = 1 - f.
Proof. intros [-> | ->]; reflexivity. Qed.

(** C6, as stated, fails: started in FOREGROUND_ONLY, which one delivery
    reaches from the initial state, two deliveries restore the flag but
    write the exiting notice first and the entering notice second. *)
Lemma C6_notices_reversed_from_foreground_only :
  mode_reachable FOREGROUND_ONLY
  /\ (deliver_twice FOREGROUND_ONLY).1 = FOREGROUND_ONLY
  /\ (deliver_twice FOREGROUND_ONLY).2 = [Stdout exitMessage; Stdout enterMessage]
  /\ (deliver_twice FOREGROUND_ONLY).2 <> [Stdout enterMessage; Stdout exitMessage].
Proof.
  split; [exact (mode_signal _ mode_init) |].
  repeat split; vm_compute; discriminate.
Qed.

(** C6, amended: the flag starts at NORMAL and has two states; every
    delivery flips it, so two deliveries from any state restore it; they
    write one notice each, entering then exiting when started in NORMAL,
    exiting then entering when started in FOREGROUND_ONLY. *)
Theorem C6_double_toggle (f : Z) (Hf : mode_reachable f) :
  fgFlag_init = NORMAL
  /\ (f = NORMAL \/ f = FOREGROUND_ONLY)
  /\ (handle_SIGTSTP f).1 = 1 - f
  /\ (deliver_twice f).1 = f
  /\ (deliver_twice f).2 =
       if f =? NORMAL then [Stdout enterMessage; Stdout exitMessage]
       else [Stdout exitMessage; Stdout enterMessage].
Proof.
  pose proof (mode_reachable_two_states f Hf) as H2.
  split; [reflexivity |]. split; [exact H2 |].
  split; [apply handle_SIGTSTP_flips, H2 |].
  destruct H2 as [-> | ->]; split; reflexivity.
Qed.

(** The amended C6 at the state FOREGROUND_ONLY. *)
Lemma C6_double_toggle_witness :
  mode_reachable 1
  /\ (deliver_twice 1).1 = 1
  /\ (deliver_twice 1).2 = [Stdout exitMessage; Stdout enterMessage].
Proof.
  split; [exact (mode_signal _ mode_init) |].
  destruct (C6_double_toggle 1 (mode_signal _ mode_init)) as (_ & _ & _ & H1 & H2).
  split; [exact H1 | exact H2].
Defined.

(** ** The [cd] built-in *)

(** C10: when [cd] cannot enter its target (a path that cannot be entered,
    or no argument and no HOME), the environment, and with it the working
    directory, and the shell state are what they were, and nothing is
    written to the user. *)
Theorem C10_cd_failure_silent (w : world) (sh : shell)
    (Hfail : cd_cannot_enter w sh) :
  exists tr, changeShellDirectory w sh = Ok (w, sh, tr)
             /\ filter (fun e => user_output e = true) tr = [].
Proof.
  unfold changeShellDirectory, chdir.
  destruct Hfail as [(path & -> & Henter) | [-> Hhome]].
  - rewrite Henter. eexists; split; reflexivity.
  - rewrite Hhome. eexists; split; reflexivity.
Qed.

(** C10 at [cd /nowhere] in an environment without that directory. *)
Lemma C10_cd_failure_silent_witness :
  cd_cannot_enter (quiet_world 4242 "") (shell_after 4242 (line "cd /nowhere"))
  /\ exists tr,
       changeShellDirectory (quiet_world 4242 "") (shell_after 4242 (line "cd /nowhere"))
       = Ok (quiet_world 4242 "", shell_after 4242 (line "cd /nowhere"), tr)
       /\ filter (fun e => user_output e = true) tr = [].
Proof.
  assert (H : cd_cannot_enter (quiet_world 4242 "")
                              (shell_after 4242 (line "cd /nowhere"))).
  { left. exists "/nowhere". split; vm_compute; reflexivity. }
  split; [exact H |].
  exact (C10_cd_failure_silent _ _ H).
Defined.

(** ** Failure of the child before and at program replacement *)

Lemma redirect_stdin_no_exec ce sh :
  filter (fun e => is_execvp e = true) (redirect_stdin ce sh).1 = [].
Proof.
  unfold redirect_stdin.
  repeat match goal with |- context [if ?b then _ else _] => destruct b end;
    reflexivity.
Qed.

Lemma redirect_stdout_no_exec ce sh :
  filter (fun e => is_execvp e = true) (redirect_stdout ce sh).1 = [].
Proof.
  unfold redirect_stdout.
  repeat match goal with |- context [if ?b then _ else _] => destruct b end;
    reflexivity.
Qed.

Lemma sigint_step_no_exec (b : bool) :
  filter (fun e => is_execvp e = true)
         (if b then [Sigaction SIGINT SIG_DFL] else []) = [].
Proof. destruct b; reflexivity. Qed.

Lemma redirect_stdin_unreadable ce sh f :
  inputFile sh = Some f -> c_open_rd ce f = false ->
  (redirect_stdin ce sh).2 = Some 1.
Proof.
  intros Hin Hopen. unfold redirect_stdin. rewrite Hin. cbn.
  rewrite Hopen. reflexivity.
Qed.

Lemma redirect_stdout_unwritable ce sh g :
  outputFile sh = Some g -> c_open_wr ce g = false ->
  (redirect_stdout ce sh).2 = Some 1.
Proof.
  intros Hout Hopen. unfold redirect_stdout. rewrite Hout. cbn.
  rewrite Hopen. reflexivity.
Qed.

(** C3, as stated, fails: [cat < missing] with an input file that cannot be
    opened and [badcmd] with no such program both end the child with
    status 1, so the exit status does not tell the two classes apart. *)
Lemma C3_same_status_for_both_failures :
  (child_branch (unreadable "missing") NORMAL
                (shell_after 4242 (line "cat < missing"))).2 = Exited 1
  /\ (child_branch (unknown_program "badcmd") NORMAL
                   (shell_after 4242 (line "badcmd"))).2 = Exited 1
  /\ ~ (child_branch (unreadable "missing") NORMAL
                     (shell_after 4242 (line "cat < missing"))).2
       <> (child_branch (unknown_program "badcmd") NORMAL
                        (shell_after 4242 (line "badcmd"))).2.
Proof.
  assert (H1 : (child_branch (unreadable "missing") NORMAL
                  (shell_after 4242 (line "cat < missing"))).2 = Exited 1)
    by (vm_compute; reflexivity).
  assert (H2 : (child_branch (unknown_program "badcmd") NORMAL
                  (shell_after 4242 (line "badcmd"))).2 = Exited 1)
    by (vm_compute; reflexivity).
  split; [exact H1 |]. split; [exact H2 |].
  rewrite H1, H2. intros Hne. apply Hne. reflexivity.
Qed.

Lemma redirect_stdin_unreadable_trace ce sh f :
  inputFile sh = Some f -> c_open_rd ce f = false ->
  (redirect_stdin ce sh).1 = [Open f false; Stdout (cannot_open f)].
Proof.
  intros Hin Hopen. unfold redirect_stdin. rewrite Hin. cbn.
  rewrite Hopen. reflexivity.
Qed.

Lemma redirect_stdout_unwritable_trace ce sh g :
  outputFile sh = Some g -> c_open_wr ce g = false ->
  (redirect_stdout ce sh).1 = [Open g true; Stdout (cannot_open g)].
Proof.
  intros Hout Hopen. unfold redirect_stdout. rewrite Hout. cbn.
  rewrite Hopen. reflexivity.
Qed.

Lemma redirect_stdin_passed ce sh :
  (redirect_stdin ce sh).2 = None ->
  filter (fun e => user_output e = true) (redirect_stdin ce sh).1 = [].
Proof.
  unfold redirect_stdin.
  repeat match goal with |- context [if ?b then _ else _] => destruct b end;
    cbn [fst snd]; intros H; try discriminate H; reflexivity.
Qed.

Lemma redirect_stdout_passed ce sh :
  (redirect_stdout ce sh).2 = None ->
  filter (fun e => user_output e = true) (redirect_stdout ce sh).1 = [].
Proof.
  unfold redirect_stdout.
  repeat match goal with |- context [if ?b then _ else _] => destruct b end;
    cbn [fst snd]; intros H; try discriminate H; reflexivity.
Qed.

Lemma sigint_step_silent (b : bool) :
  filter (fun e => user_output e = true)
         (if b then [Sigaction SIGINT SIG_DFL] else []) = [].
Proof. destruct b; reflexivity. Qed.

(** C3, amended: when a redirection target cannot be opened the child ends
    with the nonzero status 1, no program replacement has been attempted,
    and the one thing it has told the user, as its last action, is the line
    [Cannot open <file> for input] on standard output; when the program
    cannot be executed the child ends with EXIT_FAILURE, which is the same
    status 1, and the one thing it has told the user, as its last action,
    is the command name through [perror].  The messages, not the status,
    tell the two classes apart. *)
Theorem C3_child_failure_status (ce : child_env) (fg : Z) (sh : shell)
    (k : child_failure) (Hfail : fails_with ce sh k) :
  (child_branch ce fg sh).2 = Exited 1
  /\ 1 <> 0
  /\ match k with
     | OpenFailure =>
         filter (fun e => is_execvp e = true) (child_branch ce fg sh).1 = []
         /\ exists f,
              unopened ce sh f
              /\ last (child_branch ce fg sh).1 = Some (Stdout (cannot_open f))
              /\ filter (fun e => user_output e = true) (child_branch ce fg sh).1
                 = [Stdout (cannot_open f)]
     | ExecFailure =>
         EXIT_FAILURE = 1
         /\ last (child_branch ce fg sh).1
            = Some (Perror (mjoin (head (cmdLineArgs sh))))
         /\ filter (fun e => user_output e = true) (child_branch ce fg sh).1
            = [Perror (mjoin (head (cmdLineArgs sh)))]
     end.
Proof.
  unfold child_branch.
  pose proof (redirect_stdin_no_exec ce sh) as Hin.
  pose proof (redirect_stdout_no_exec ce sh) as Hout.
  pose proof (sigint_step_no_exec ((bgFlag sh =? 0) || (fg =? 1))) as Hsig.
  pose proof (sigint_step_silent ((bgFlag sh =? 0) || (fg =? 1))) as Hsil.
  destruct k; cbn in Hfail.
  - destruct Hfail as [(f & Hf & Hopen) | (Hpass & g & Hg & Hopen)].
    + pose proof (redirect_stdin_unreadable ce sh f Hf Hopen) as H1.
      pose proof (redirect_stdin_unreadable_trace ce sh f Hf Hopen) as Ht.
      destruct (redirect_stdin ce sh) as [tr1 [st|]]; cbn [fst snd] in *;
        [|discriminate].
      injection H1 as ->. subst tr1. split; [reflexivity|]. split; [lia|].
      split; [rewrite list.filter_app, Hsig, Hin; reflexivity|].
      exists f. split; [left; split; assumption|]. split.
      * rewrite last_app. reflexivity.
      * rewrite list.filter_app, Hsil. reflexivity.
    + pose proof (redirect_stdout_unwritable ce sh g Hg Hopen) as H2.
      pose proof (redirect_stdout_unwritable_trace ce sh g Hg Hopen) as Ht.
      pose proof (redirect_stdin_passed ce sh Hpass) as Hq.
      assert (Hun : unopened ce sh g) by (right; auto).
      destruct (redirect_stdin ce sh) as [tr1 [st|]]; cbn [fst snd] in *;
        [discriminate|].
      destruct (redirect_stdout ce sh) as [tr2 [st|]]; cbn [fst snd] in *;
        [|discriminate].
      injection H2 as ->. subst tr2. split; [reflexivity|]. split; [lia|].
      split; [rewrite !list.filter_app, Hsig, Hin, Hout; reflexivity|].
      exists g. split; [exact Hun|]. split.
      * rewrite !app_assoc, last_app. reflexivity.
      * rewrite !list.filter_app, Hsil, Hq. reflexivity.
  - destruct Hfail as (H1 & H2 & Hexec).
    pose proof (redirect_stdin_passed ce sh H1) as Hq1.
    pose proof (redirect_stdout_passed ce sh H2) as Hq2.
    destruct (redirect_stdin ce sh) as [tr1 [st|]]; cbn [fst snd] in *;
      [discriminate|].
    destruct (redirect_stdout ce sh) as [tr2 [st|]]; cbn [fst snd] in *;
      [discriminate|].
    unfold run_execvp. rewrite Hexec. cbn [fst snd].
    split; [reflexivity|]. split; [lia|]. split; [reflexivity|]. split.
    + rewrite !app_assoc. rewrite last_app. reflexivity.
    + rewrite !list.filter_app, Hsil, Hq1, Hq2. reflexivity.
Qed.

(** The amended C3 at [cat < missing] and at [badcmd]: the same status, and
    the two messages. *)
Lemma C3_child_failure_status_witness :
  (fails_with (unreadable "missing") (shell_after 4242 (line "cat < missing"))
              OpenFailure
   /\ (child_branch (unreadable "missing") NORMAL
                    (shell_after 4242 (line "cat < missing"))).2 = Exited 1
   /\ filter (fun e => user_output e = true)
             (child_branch (unreadable "missing") NORMAL
                           (shell_after 4242 (line "cat < missing"))).1
      = [Stdout (line "Cannot open missing for input")])
  /\ (fails_with (unknown_program "badcmd") (shell_after 4242 (line "badcmd"))
                 ExecFailure
      /\ (child_branch (unknown_program "badcmd") NORMAL
                       (shell_after 4242 (line "badcmd"))).2 = Exited 1
      /\ filter (fun e => user_output e = true)
                (child_branch (unknown_program "badcmd") NORMAL
                              (shell_after 4242 (line "badcmd"))).1
         = [Perror (Some "badcmd")]).
Proof.
  assert (Ha : fails_with (unreadable "missing")
                 (shell_after 4242 (line "cat < missing")) OpenFailure).
  { left. exists "missing". split; vm_compute; reflexivity. }
  assert (Hb : fails_with (unknown_program "badcmd")
                 (shell_after 4242 (line "badcmd")) ExecFailure).
  { repeat split; vm_compute; reflexivity. }
  split; (split; [assumption |]).
  - destruct (C3_child_failure_status _ NORMAL _ OpenFailure Ha)
      as (Hstatus & _ & _ & f & Hun & _ & Hsaid).
    split; [exact Hstatus|]. rewrite Hsaid.
    destruct Hun as [[Hin _] | (_ & Hout & _)].
    + vm_compute in Hin. injection Hin as <-. reflexivity.
    + vm_compute in Hout. discriminate Hout.
  - destruct (C3_child_failure_status _ NORMAL _ ExecFailure Hb)
      as (Hstatus & _ & _ & _ & Hsaid).
    split; [exact Hstatus|]. rewrite Hsaid. reflexivity.
Defined.

(** ** Registration in a full table *)

Lemma first_free_all_taken (bg : list Z) :
  Forall (fun v => v <> 0) bg -> forall n x, first_free x n bg = None.
Proof.
  intros Hall. induction n as [|n IH]; intros x; [reflexivity|].
  cbn. destruct (bg !! x) as [v|] eqn:Hx; [|reflexivity].
  pose proof (Forall_lookup_1 _ _ _ _ Hall Hx) as Hv.
  destruct (Z.eqb_spec v 0) as [->|_]; [contradiction | apply IH].
Qed.

Lemma register_full (p : Z) (bg : list Z) :
  Forall (fun v => v <> 0) bg -> register p bg = bg.
Proof.
  intros Hall. unfold register. rewrite first_free_all_taken by exact Hall.
  reflexivity.
Qed.

(** C2, evaluated at a full table: with all fifty slots taken and the mode
    NORMAL, the parent of the job started by [sleep 5 &] with pid 777
    leaves the table as it was and writes only the start notice; pid 777 is
    in no slot afterwards, and no error is shown. *)
Theorem C2_full_table_drops_job :
  Forall (fun v => v <> 0) full_table
  /\ length full_table = BG_SLOTS
  /\ createNewProcess (quiet_world 100 "") all_succeed NORMAL 777
       (set_bgProcesses full_table (shell_after 100 (line "sleep 5 &")))
     = InParent
         (set_childPID 777
            (set_bgProcesses full_table (shell_after 100 (line "sleep 5 &"))))
         [Stdout (line "Background PID is 777")]
  /\ bool_decide (777 ∈ full_table) = false.
Proof.
  split.
  { unfold full_table. apply Forall_fmap, Forall_forall. intros i _. cbn. lia. }
  split; [reflexivity|]. split; vm_compute; reflexivity.
Qed.

(** ** A background request in foreground-only mode *)

(** C4, evaluated at [ls &] in FOREGROUND_ONLY mode: the parent waits as it
    does for [ls] and the child restores the default interrupt disposition,
    but the child still opens the null device for both standard input and
    standard output, which the child of [ls] does not. *)
Theorem C4_foreground_only_still_redirects :
  child_branch all_succeed FOREGROUND_ONLY (shell_after 4242 (line "ls &"))
  = ([Sigaction SIGINT SIG_DFL;
      Open dev_null false; Dup2 0 dev_null; Cloexec dev_null;
      Open dev_null true; Dup2 1 dev_null; Cloexec dev_null;
      Execvp (Some "ls") ["ls"]], Replaced)
  /\ child_branch all_succeed FOREGROUND_ONLY (shell_after 4242 (line "ls"))
     = ([Sigaction SIGINT SIG_DFL; Execvp (Some "ls") ["ls"]], Replaced)
  /\ (parent_branch (quiet_world 4242 "") FOREGROUND_ONLY
        (set_childPID 777 (shell_after 4242 (line "ls &")))).2 = [WaitPid 777 0]
  /\ (parent_branch (quiet_world 4242 "") FOREGROUND_ONLY
        (set_childPID 777 (shell_after 4242 (line "ls")))).2 = [WaitPid 777 0].
Proof. repeat split; vm_compute; reflexivity. Qed.

(** ** [pidReplacement] against the expansion of the specification *)

Lemma dollar_not_digit : not_digit "$".
Proof. intros x. unfold pretty_N_char. repeat case_match; discriminate. Qed.

Lemma percent_not_digit : not_digit "%".
Proof. intros x. unfold pretty_N_char. repeat case_match; discriminate. Qed.

Lemma append_cons a s t : String a s +:+ t = String a (s +:+ t).
Proof. reflexivity. Qed.

Lemma lacks_append c s t : lacks c s -> lacks c t -> lacks c (s +:+ t).
Proof.
  induction s as [|a s IH]; [cbn; auto|]. rewrite append_cons.
  intros [Ha Hs] Ht. split; auto.
Qed.

Lemma pretty_N_go_lacks c x :
  not_digit c -> forall s, lacks c s -> lacks c (pretty_N_go x s).
Proof.
  intros Hc. induction (N.lt_wf_0 x) as [x _ IH]; intros s Hs.
  destruct (decide (x = 0)%N) as [->|Hx].
  - rewrite pretty_N_go_0. exact Hs.
  - rewrite pretty_N_go_step by lia. apply IH.
    + apply N.div_lt; lia.
    + split; [apply Hc | exact Hs].
Qed.

Lemma pretty_N_lacks c (x : N) : not_digit c -> lacks c (pretty x).
Proof.
  intros Hc. unfold pretty, pretty_N. destruct (decide (x = 0)%N).
  - split; [apply (Hc 0%N) | exact I].
  - apply pretty_N_go_lacks; [exact Hc | exact I].
Qed.

Lemma fmt_d_lacks c p : not_digit c -> c <> "-"%char -> lacks c (fmt_d p).
Proof.
  intros Hc Hdash. unfold fmt_d, pretty, pretty_Z. destruct p as [|q|q].
  - split; [apply (Hc 0%N) | exact I].
  - apply (pretty_N_lacks c (Npos q) Hc).
  - split; [congruence|]. apply (pretty_N_lacks c (Npos q) Hc).
Qed.

Lemma pretty_N_go_length x : forall s,
  (String.length s <= String.length (pretty_N_go x s))%nat.
Proof.
  induction (N.lt_wf_0 x) as [x _ IH]; intros s.
  destruct (decide (x = 0)%N) as [->|Hx].
  - rewrite pretty_N_go_0. lia.
  - rewrite pretty_N_go_step by lia.
    etrans; [|apply IH, N.div_lt; lia]. cbn. lia.
Qed.

Lemma fmt_d_nonempty p : (0 < String.length (fmt_d p))%nat.
Proof.
  assert (HN : forall x : N, (0 < String.length (pretty x))%nat).
  { intros x. unfold pretty, pretty_N. destruct (decide (x = 0)%N); [cbn; lia|].
    rewrite pretty_N_go_step by lia.
    eapply Nat.lt_le_trans; [|apply pretty_N_go_length]. cbn. lia. }
  unfold fmt_d, pretty, pretty_Z. destruct p as [|q|q].
  - cbn. lia.
  - apply (HN (Npos q)).
  - change ("-" +:+ pretty q) with (String "-"%char (pretty q)).
    cbn [String.length]. lia.
Qed.

Lemma strlen_append pre suf :
  strlen (pre +:+ suf) = (strlen pre + strlen suf)%nat.
Proof.
  unfold strlen. induction pre as [|a pre IH]; [reflexivity|].
  rewrite append_cons. cbn [String.length Nat.add]. f_equal. exact IH.
Qed.

Lemma char_is_append pre suf n c :
  char_is (pre +:+ suf) (strlen pre + n) c = char_is suf n c.
Proof.
  unfold char_is, strlen. induction pre as [|a pre IH]; [reflexivity|].
  rewrite append_cons. cbn [String.length Nat.add String.get]. exact IH.
Qed.

Lemma set_char_append pre suf n c :
  set_char (pre +:+ suf) (strlen pre + n) c = pre +:+ set_char suf n c.
Proof.
  unfold strlen. induction pre as [|a pre IH]; [reflexivity|].
  rewrite !append_cons. cbn [String.length Nat.add set_char]. f_equal. exact IH.
Qed.

Lemma append_snoc pre c r : pre +:+ String c r = (pre +:+ String c "") +:+ r.
Proof.
  induction pre as [|a pre IH]; [reflexivity|].
  rewrite !append_cons. f_equal. exact IH.
Qed.

Lemma strlen_snoc pre c : strlen (pre +:+ String c "") = S (strlen pre).
Proof. rewrite strlen_append. cbn. lia. Qed.

Lemma lacks_snoc c pre a : lacks c pre -> a <> c -> lacks c (pre +:+ String a "").
Proof. intros Hpre Ha. apply lacks_append; [exact Hpre|]. cbn. auto. Qed.

Lemma sprintf_plain s args : lacks "%" s -> sprintf s args = Some s.
Proof.
  induction s as [|a s IH]; [reflexivity|]. intros [Ha Hs]. cbn [sprintf].
  destruct (Ascii.eqb_spec a "%"); [contradiction|].
  rewrite (IH Hs). reflexivity.
Qed.

Lemma sprintf_after_plain pre r args :
  lacks "%" pre -> sprintf (pre +:+ r) args = String.append pre <$> sprintf r args.
Proof.
  induction pre as [|a pre IH]; intros Hpre.
  - change ("" +:+ r) with r. destruct (sprintf r args); reflexivity.
  - destruct Hpre as [Ha Hpre]. rewrite append_cons. cbn [sprintf].
    destruct (Ascii.eqb_spec a "%"); [contradiction|].
    rewrite (IH Hpre). destruct (sprintf r args); reflexivity.
Qed.

Lemma sprintf_percent_d pre r p :
  lacks "%" pre -> lacks "%" r ->
  sprintf (pre +:+ String "%" (String "d" r)) [p] = Some (pre +:+ fmt_d p +:+ r).
Proof.
  intros Hpre Hr. rewrite sprintf_after_plain by exact Hpre.
  cbn [sprintf]. change (Ascii.eqb "%" "%") with true.
  change (Ascii.eqb "d" "%") with false. change (Ascii.eqb "d" "d") with true.
  cbn match. rewrite (sprintf_plain r [] Hr). reflexivity.
Qed.

Lemma expand_two_dollars p r :
  expand p (String "$" (String "$" r)) = fmt_d p +:+ expand p r.
Proof. reflexivity. Qed.

Lemma expand_other p c r :
  (Ascii.eqb c "$" && char_is r 0 "$") = false ->
  expand p (String c r) = String c (expand p r).
Proof.
  destruct r as [|c2 r2]; [reflexivity|]. unfold char_is. cbn [String.get].
  intros H. cbn [expand]. rewrite H. reflexivity.
Qed.

Lemma expand_after_plain p ds r :
  lacks "$" ds -> expand p (ds +:+ r) = ds +:+ expand p r.
Proof.
  induction ds as [|a ds IH]; [reflexivity|]. intros [Ha Hds].
  rewrite !append_cons. rewrite expand_other.
  - rewrite (IH Hds). reflexivity.
  - destruct (Ascii.eqb_spec a "$"); [contradiction | reflexivity].
Qed.

Lemma pidReplacement_loop_unfold fuel p size x command :
  pidReplacement_loop (S fuel) p size x command =
    if (x <? strlen command)%nat then
      if char_is command x "$" && (x + 1 <? strlen command)%nat
         && char_is command (x + 1) "$"
      then
        match sprintf (set_char (set_char command x "%") (x + 1) "d") [p] with
        | Some command' =>
            if (strlen command' <? size)%nat
            then pidReplacement_loop fuel p size (S x) command'
            else Fault OutOfBounds
        | None => Fault BadFormat
        end
      else pidReplacement_loop fuel p size (S x) command
    else Ok command.
Proof. reflexivity. Qed.

Lemma has_pair_cons c r :
  has_pair (String c r) = (Ascii.eqb c "$" && char_is r 0 "$") || has_pair r.
Proof. reflexivity. Qed.

(** The test of line 101 at index [strlen pre] of [pre +:+ String c r]. *)
Lemma pair_test pre c r :
  char_is (pre +:+ String c r) (strlen pre) "$"
  && (strlen pre + 1 <? strlen (pre +:+ String c r))%nat
  && char_is (pre +:+ String c r) (strlen pre + 1) "$"
  = Ascii.eqb c "$" && char_is r 0 "$".
Proof.
  rewrite <- (Nat.add_0_r (strlen pre)) at 1.
  rewrite !char_is_append, strlen_append.
  change (char_is (String c r) 0 "$") with (Ascii.eqb c "$").
  change (char_is (String c r) 1 "$") with (char_is r 0 "$").
  destruct r as [|c2 r2].
  - unfold char_is. cbn [String.get]. rewrite !andb_false_r. reflexivity.
  - replace (strlen pre + 1 <? strlen pre + strlen (String c (String c2 r2)))%nat
      with true by (symmetry; apply Nat.ltb_lt; cbn; lia).
    rewrite andb_true_r. reflexivity.
Qed.

Lemma pair_at_head c r :
  Ascii.eqb c "$" && char_is r 0 "$" = true ->
  exists r2, c = "$"%char /\ r = String "$" r2.
Proof.
  intros H. apply andb_prop in H as [Hc Hr]. apply Ascii.eqb_eq in Hc.
  destruct r as [|c2 r2]; [discriminate Hr|].
  unfold char_is in Hr. cbn [String.get] in Hr. apply Ascii.eqb_eq in Hr.
  subst. exists r2. split; reflexivity.
Qed.

(** What [sprintf] is given, and what it writes, when the pair stands at
    index [strlen pre]. *)
Lemma sprintf_at_pair pre r2 p :
  lacks "%" pre -> lacks "%" r2 ->
  sprintf (set_char (set_char (pre +:+ String "$" (String "$" r2))
                              (strlen pre) "%") (strlen pre + 1) "d") [p]
  = Some (pre +:+ fmt_d p +:+ r2).
Proof.
  intros Hpre Hr2.
  rewrite <- (Nat.add_0_r (strlen pre)) at 1.
  rewrite set_char_append. cbn [set_char].
  rewrite set_char_append. cbn [set_char].
  apply sprintf_percent_d; assumption.
Qed.

(** The loop at index [strlen pre] of the buffer [pre +:+ suf] finishes the
    expansion of [suf], when neither part holds a [%] and the decimal pid
    is not longer than the pair it replaces. *)
Lemma pidReplacement_loop_expand p size fuel : forall pre suf,
  lacks "%" pre -> lacks "%" suf ->
  (strlen (expand p suf) < fuel)%nat ->
  has_pair suf = false \/ (strlen (fmt_d p) <= 2)%nat ->
  (strlen (pre +:+ suf) < size)%nat ->
  pidReplacement_loop fuel p size (strlen pre) (pre +:+ suf)
  = Ok (pre +:+ expand p suf).
Proof.
  induction fuel as [|fuel IH]; intros pre suf Hpre Hsuf Hfuel Hroom Hsize; [lia|].
  rewrite pidReplacement_loop_unfold.
  destruct suf as [|c r].
  { rewrite strlen_append.
    replace (strlen pre <? strlen pre + strlen "")%nat with false
      by (symmetry; apply Nat.ltb_ge; cbn; lia).
    reflexivity. }
  replace (strlen pre <? strlen (pre +:+ String c r))%nat with true
    by (symmetry; apply Nat.ltb_lt; rewrite strlen_append; cbn; lia).
  rewrite pair_test.
  destruct Hsuf as [Hc Hr].
  destruct (Ascii.eqb c "$" && char_is r 0 "$") eqn:Hpair.
  - destruct (pair_at_head c r Hpair) as (r2 & -> & ->).
    destruct Hroom as [Hno|Hshort];
      [rewrite has_pair_cons in Hno; cbn in Hno; discriminate Hno|].
    destruct Hr as [_ Hr2].
    rewrite (sprintf_at_pair pre r2 p Hpre Hr2).
    rewrite expand_two_dollars in Hfuel |- *.
    assert (Hfits : (strlen (pre +:+ fmt_d p +:+ r2) <? size)%nat = true).
    { apply Nat.ltb_lt. rewrite !strlen_append in *. cbn in Hsize.
      unfold strlen in *. lia. }
    rewrite Hfits.
    pose proof (fmt_d_nonempty p) as Hlen.
    pose proof (fmt_d_lacks "%" p percent_not_digit ltac:(discriminate)) as Hpc.
    pose proof (fmt_d_lacks "$" p dollar_not_digit ltac:(discriminate)) as Hdl.
    apply Nat.ltb_lt in Hfits.
    destruct (fmt_d p) as [|a ds]; [cbn in Hlen; lia|].
    destruct Hpc as [Ha Hds]. destruct Hdl as [_ Hds'].
    rewrite !append_cons in *.
    rewrite append_snoc, <- (strlen_snoc pre a), IH.
    + rewrite (expand_after_plain p ds r2 Hds'), <- append_snoc. reflexivity.
    + apply lacks_snoc; assumption.
    + apply lacks_append; assumption.
    + rewrite (expand_after_plain p ds r2 Hds').
      unfold strlen in *. cbn [String.length] in Hfuel. lia.
    + right. exact Hshort.
    + rewrite <- append_snoc. exact Hfits.
  - rewrite (expand_other p c r Hpair) in Hfuel |- *.
    rewrite append_snoc, <- (strlen_snoc pre c), IH.
    + rewrite <- append_snoc. reflexivity.
    + apply lacks_snoc; assumption.
    + exact Hr.
    + cbn in Hfuel. unfold strlen. lia.
    + destruct Hroom as [Hno|Hshort]; [left|right; exact Hshort].
      rewrite has_pair_cons, Hpair in Hno. exact Hno.
    + rewrite <- append_snoc. exact Hsize.
Qed.

(** With a decimal pid of more than two characters, the first [$$] of a
    buffer that is as long as its block allows makes [sprintf] run past the
    end of the block. *)
Lemma pidReplacement_loop_overrun p size fuel : forall pre suf,
  lacks "%" pre -> lacks "%" suf ->
  (strlen suf < fuel)%nat ->
  has_pair suf = true -> (2 < strlen (fmt_d p))%nat ->
  (size <= strlen (pre +:+ suf) + 1)%nat ->
  pidReplacement_loop fuel p size (strlen pre) (pre +:+ suf) = Fault OutOfBounds.
Proof.
  induction fuel as [|fuel IH]; intros pre suf Hpre Hsuf Hfuel Hhas Hlong Hsize;
    [lia|].
  rewrite pidReplacement_loop_unfold.
  destruct suf as [|c r]; [discriminate Hhas|].
  replace (strlen pre <? strlen (pre +:+ String c r))%nat with true
    by (symmetry; apply Nat.ltb_lt; rewrite strlen_append; cbn; lia).
  rewrite pair_test.
  destruct Hsuf as [Hc Hr].
  destruct (Ascii.eqb c "$" && char_is r 0 "$") eqn:Hpair.
  - destruct (pair_at_head c r Hpair) as (r2 & -> & ->).
    destruct Hr as [_ Hr2].
    rewrite (sprintf_at_pair pre r2 p Hpre Hr2).
    replace (strlen (pre +:+ fmt_d p +:+ r2) <? size)%nat with false;
      [reflexivity|].
    symmetry. apply Nat.ltb_ge. rewrite !strlen_append in *. cbn in Hsize.
    unfold strlen in *. lia.
  - rewrite has_pair_cons, Hpair in Hhas. cbn [orb] in Hhas.
    rewrite append_snoc, <- (strlen_snoc pre c). apply IH.
    + apply lacks_snoc; assumption.
    + exact Hr.
    + cbn in Hfuel. unfold strlen. lia.
    + exact Hhas.
    + exact Hlong.
    + rewrite <- append_snoc. exact Hsize.
Qed.

Lemma expand_length_bound p : forall s,
  (strlen (expand p s) <= strlen s + strlen (fmt_d p) * count_char "$" s)%nat
  /\ forall c,
       (strlen (expand p (String c s))
        <= strlen (String c s) + strlen (fmt_d p) * count_char "$" (String c s))%nat.
Proof.
  induction s as [|c2 r2 [IH1 IH2]].
  - split; [cbn; lia|]. intros c. cbn. lia.
  - split; [apply IH2|]. intros c. specialize (IH2 c2).
    destruct (Ascii.eqb c "$" && Ascii.eqb c2 "$") eqn:Hcond.
    + apply andb_prop in Hcond as [H1 H2].
      apply Ascii.eqb_eq in H1 as ->. apply Ascii.eqb_eq in H2 as ->.
      rewrite expand_two_dollars, strlen_append.
      change (count_char "$" (String "$" (String "$" r2)))
        with (S (S (count_char "$" r2))).
      unfold strlen in *. cbn [String.length]. nia.
    + rewrite (expand_other p c (String c2 r2) Hcond).
      change (count_char "$" (String c (String c2 r2)))
        with ((if Ascii.eqb c "$" then 1 else 0)
              + count_char "$" (String c2 r2))%nat.
      unfold strlen in *. cbn [String.length] in *.
      destruct (Ascii.eqb c "$"); nia.
Qed.

Lemma expand_no_pair p : forall s, has_pair s = false -> expand p s = s.
Proof.
  induction s as [|c r IH]; [reflexivity|]. intros Hno.
  rewrite has_pair_cons in Hno. apply orb_false_elim in Hno as [Hhere Hrest].
  rewrite (expand_other p c r Hhere), (IH Hrest). reflexivity.
Qed.

(** On a token without [%], [pidReplacement] computes the expansion the
    specification describes when the decimal pid has at most two characters
    or the token holds no [$$], and runs past the token's block
    otherwise. *)
Lemma pidReplacement_expand p token :
  lacks "%" token ->
  pidReplacement p token
  = if overruns p token then Fault OutOfBounds else Ok (expand p token).
Proof.
  intros Htok. unfold pidReplacement, pidReplacement_bound, overruns.
  destruct (has_pair token) eqn:Hhas; cbn [andb].
  - destruct (Nat.ltb_spec 2 (strlen (fmt_d p))) as [Hlong|Hshort].
    + apply (pidReplacement_loop_overrun p _ _ "" token I Htok);
        [lia | exact Hhas | exact Hlong | change ("" +:+ token) with token; lia].
    + apply (pidReplacement_loop_expand p _ _ "" token I Htok).
      * pose proof (proj1 (expand_length_bound p token)). lia.
      * right. exact Hshort.
      * change ("" +:+ token) with token. lia.
  - apply (pidReplacement_loop_expand p _ _ "" token I Htok).
    + pose proof (proj1 (expand_length_bound p token)). lia.
    + left. exact Hhas.
    + change ("" +:+ token) with token. lia.
Qed.

(** C1, evaluated at lines whose first token contains [$$]: the first
    token is copied without a call of [pidReplacement], the later tokens
    are expanded (with the pid 42, whose two digits take the place of the
    pair). *)
Theorem C1_first_token_not_expanded :
  read_command 42 (line "$$ $$") = Ok (["$$"; "42"], None, None, 0)
  /\ read_command 42 (line "kill$$ -9 $$x$$")
     = Ok (["kill$$"; "-9"; "42x42"], None, None, 0)
  /\ read_command 4242 (line "kill$$ -9 1")
     = Ok (["kill$$"; "-9"; "1"], None, None, 0).
Proof. repeat split; vm_compute; reflexivity. Qed.

(** ** The extractor on lines that start with a command *)

Lemma for_range_total {St : Type} (P : nat -> St -> Prop)
    (body : nat -> St -> result St) (n : nat) : forall x s,
  (forall y t, (x <= y < x + n)%nat -> P y t ->
               exists t', body y t = Ok t' /\ P (S y) t') ->
  P x s ->
  exists s', for_range x n body s = Ok s' /\ P (x + n)%nat s'.
Proof.
  induction n as [|n IH]; intros x s Hbody Hs.
  - exists s. rewrite Nat.add_0_r. split; [reflexivity | exact Hs].
  - destruct (Hbody x s ltac:(lia) Hs) as (s1 & Hstep & Hs1).
    destruct (IH (S x) s1) as (s' & Hrun & Hs'); [|exact Hs1|].
    + intros y t Hy. apply Hbody. lia.
    + exists s'. cbn [for_range]. rewrite Hstep. cbn [mbind result_bind].
      split; [exact Hrun|]. replace (x + S n)%nat with (S x + n)%nat by lia.
      exact Hs'.
Qed.

Lemma argv_of_lookup (ts : list string) : forall l : list (option string),
  (forall j t, ts !! j = Some t -> l !! j = Some (Some t)) ->
  l !! length ts = Some None ->
  argv_of l = ts.
Proof.
  induction ts as [|t ts IH]; intros l Hts Hend.
  - destruct l as [|[a|] l]; [discriminate| discriminate |reflexivity].
  - pose proof (Hts O t eq_refl) as H0.
    destruct l as [|a l]; [discriminate|]. injection H0 as ->.
    cbn [argv_of]. f_equal. apply IH.
    + intros j u Hj. exact (Hts (S j) u Hj).
    + exact Hend.
Qed.

Lemma clear_loop (k : nat) : forall x (l : list (option string)),
  (x + k <= length l)%nat ->
  exists l', for_range x k clear_step l = Ok l'
             /\ (forall j, (j < x)%nat -> l' !! j = l !! j)
             /\ (forall j, (x <= j < x + k)%nat -> l' !! j = Some None).
Proof.
  induction k as [|k IH]; intros x l Hlen.
  - exists l. split; [reflexivity|]. split; [reflexivity | lia].
  - assert (Hstep : clear_step x l = Ok (<[x := None]> l)).
    { unfold clear_step.
      destruct (l !! x) as [[a|]|] eqn:Hx; [reflexivity| |].
      - rewrite list_insert_id by exact Hx. reflexivity.
      - apply lookup_ge_None in Hx. lia. }
    destruct (IH (S x) (<[x := None]> l)) as (l' & Hrun & Hlow & Hhigh).
    { rewrite length_insert. lia. }
    exists l'. cbn [for_range]. rewrite Hstep. cbn [mbind result_bind].
    split; [exact Hrun|]. split.
    + intros j Hj. rewrite Hlow by lia. apply list_lookup_insert_ne. lia.
    + intros j Hj. destruct (decide (j = x)) as [->|Hne].
      * rewrite Hlow by lia. apply list_lookup_insert_eq. lia.
      * apply Hhigh. lia.
Qed.

Lemma first_redirect_snoc (l : list string) (t : string) :
  first_redirect (l ++ [t])
  = match first_redirect l with
    | Some i => Some i
    | None => if is_redirect t then Some (length l) else None
    end.
Proof.
  induction l as [|a l IH]; cbn [first_redirect app length].
  - destruct (is_redirect t); reflexivity.
  - destruct (is_redirect a); [reflexivity|]. rewrite IH.
    destruct (first_redirect l); [reflexivity|].
    destruct (is_redirect t); reflexivity.
Qed.

Lemma first_redirect_bound (l : list string) : forall i,
  first_redirect l = Some i ->
  (i < length l)%nat /\ (i = O -> exists t, head l = Some t /\ is_redirect t = true).
Proof.
  induction l as [|a l IH]; intros i Hi; [discriminate|].
  cbn [first_redirect] in Hi. destruct (is_redirect a) eqn:Ha.
  - injection Hi as <-. split; [cbn; lia|]. intros _. exists a. auto.
  - destruct (first_redirect l) as [j|]; [|discriminate].
    injection Hi as <-. destruct (IH j eq_refl) as [Hj _].
    split; [cbn; lia | discriminate].
Qed.

Lemma first_redirect_before (l : list string) : forall i,
  first_redirect l = Some i ->
  forall j t, (j < i)%nat -> l !! j = Some t -> is_redirect t = false.
Proof.
  induction l as [|a l IH]; intros i Hi j t Hj Ht; [discriminate|].
  cbn [first_redirect] in Hi. destruct (is_redirect a) eqn:Ha.
  - injection Hi as <-. lia.
  - destruct (first_redirect l) as [k|] eqn:Hk; [|discriminate].
    injection Hi as <-. destruct j as [|j].
    + injection Ht as <-. exact Ha.
    + apply (IH k eq_refl j t); [lia | exact Ht].
Qed.

Lemma first_redirect_none (l : list string) :
  first_redirect l = None -> Forall (fun t => is_redirect t = false) l.
Proof.
  induction l as [|a l IH]; intros Hl; [constructor|].
  cbn [first_redirect] in Hl. destruct (is_redirect a) eqn:Ha; [discriminate|].
  destruct (first_redirect l); [discriminate|]. constructor; auto.
Qed.

Section Extractor.
Local Open Scope nat_scope.

Variable toks : list string.
Hypothesis Hwf : command_first toks.

Lemma loaded_token x t :
  toks !! x = Some t -> loaded toks !! x = Some (Some t).
Proof.
  intros Hx. unfold loaded.
  rewrite lookup_app_l by (rewrite length_fmap; eapply lookup_lt_Some, Hx).
  rewrite list_lookup_fmap, Hx. reflexivity.
Qed.

Lemma loaded_null x :
  length toks <= x < MAX_ARGS -> loaded toks !! x = Some None.
Proof.
  intros Hx. unfold loaded.
  rewrite lookup_app_r by (rewrite length_fmap; lia).
  rewrite length_fmap. apply lookup_replicate_2. lia.
Qed.

Lemma loaded_length : length (loaded toks) = MAX_ARGS.
Proof.
  unfold loaded. rewrite length_app, length_fmap, length_replicate.
  destruct Hwf as [? _]. lia.
Qed.

Lemma first_redirect_not_head y i :
  first_redirect (take y toks) = Some i -> 0 < i < y.
Proof.
  intros Hi. destruct (first_redirect_bound _ _ Hi) as [Hlt Hzero].
  rewrite length_take in Hlt. split; [|lia].
  destruct i as [|i]; [|lia].
  destruct (Hzero eq_refl) as (t & Hhead & Ht).
  destruct Hwf as (_ & Hfirst & _).
  rewrite (Hfirst t) in Ht; [discriminate|].
  destruct toks, y; cbn in *; try discriminate; try lia; exact Hhead.
Qed.

Lemma last_token y t :
  toks !! y = Some t -> S y = length toks -> last toks = Some t.
Proof. intros Ht Hy. rewrite last_lookup, <- Hy. exact Ht. Qed.

Lemma IOstart_seen y t io :
  toks !! y = Some t -> is_redirect t = true ->
  io = default 0 (first_redirect (take y toks)) ->
  next_IOstart io y = default 0 (first_redirect (take (S y) toks)).
Proof.
  intros Ht Hop ->. pose proof (lookup_lt_Some _ _ _ Ht) as Hy.
  rewrite (take_S_r _ _ _ Ht), first_redirect_snoc, Hop, length_take.
  destruct (first_redirect (take y toks)) as [i|] eqn:Hi; cbn [default].
  - apply first_redirect_not_head in Hi. unfold next_IOstart, id.
    destruct (Nat.eqb_spec i 0); [lia|].
    destruct (Nat.ltb_spec y i); [lia|]. reflexivity.
  - unfold next_IOstart. cbn. lia.
Qed.

Lemma IOstart_kept y t :
  toks !! y = Some t -> is_redirect t = false ->
  default 0 (first_redirect (take (S y) toks))
  = default 0 (first_redirect (take y toks)).
Proof.
  intros Ht Hop. rewrite (take_S_r _ _ _ Ht), first_redirect_snoc, Hop.
  destruct (first_redirect (take y toks)); reflexivity.
Qed.

Lemma file_name_follows y t :
  toks !! y = Some t -> is_redirect t = true ->
  exists f, toks !! (y + 1) = Some f /\ S y <> length toks.
Proof.
  intros Ht Hop. pose proof (lookup_lt_Some _ _ _ Ht) as Hy.
  destruct (decide (S y = length toks)) as [Hlast|Hmore].
  - destruct Hwf as (_ & _ & Hend).
    rewrite (Hend t (last_token y t Ht Hlast)) in Hop. discriminate.
  - destruct (toks !! (y + 1)) as [f|] eqn:Hf; [eauto|].
    apply lookup_ge_None in Hf. lia.
Qed.

Lemma redirect_step_scanned y st :
  y < length toks -> scanned toks y st ->
  exists st', redirect_step y st = Ok st' /\ scanned toks (S y) st'.
Proof.
  destruct st as [sh io]. intros Hy [Hargs Hio]. cbn [fst snd] in Hargs, Hio.
  rewrite bool_decide_eq_false_2 in Hargs by lia.
  destruct (toks !! y) as [t|] eqn:Ht;
    [|apply lookup_ge_None in Ht; lia].
  unfold redirect_step. cbv beta iota. rewrite Hargs, (loaded_token y t Ht).
  assert (Hredirect : forall sh',
    cmdLineArgs sh' = cmdLineArgs sh -> is_redirect t = true ->
    scanned toks (S y) (sh', next_IOstart io y)).
  { intros sh' Hsame Hop. split; cbn [fst snd].
    - destruct (file_name_follows y t Ht Hop) as (_ & _ & Hmore).
      rewrite bool_decide_eq_false_2 by (intros [? _]; contradiction).
      rewrite Hsame. exact Hargs.
    - apply (IOstart_seen y t io Ht Hop Hio). }
  destruct (streq t "<") eqn:Hlt.
  { assert (Hop : is_redirect t = true) by (unfold is_redirect; rewrite Hlt; reflexivity).
    destruct (file_name_follows y t Ht Hop) as (f & Hf & _).
    rewrite (loaded_token _ f Hf). eexists. split; [reflexivity|].
    apply Hredirect; [reflexivity | exact Hop]. }
  destruct (streq t ">") eqn:Hgt.
  { assert (Hop : is_redirect t = true)
      by (unfold is_redirect; rewrite Hlt, Hgt; reflexivity).
    destruct (file_name_follows y t Ht Hop) as (f & Hf & _).
    rewrite (loaded_token _ f Hf). eexists. split; [reflexivity|].
    apply Hredirect; [reflexivity | exact Hop]. }
  assert (Hop : is_redirect t = false)
    by (unfold is_redirect; rewrite Hlt, Hgt; reflexivity).
  pose proof (IOstart_kept y t Ht Hop) as Hkeep.
  destruct (streq t "&") eqn:Hamp.
  - apply String.eqb_eq in Hamp. subst t.
    destruct (decide (S y = length toks)) as [Hlast|Hmore].
    + rewrite loaded_null by (destruct Hwf as [? _]; lia).
      eexists. split; [reflexivity|]. split; cbn [fst snd].
      * rewrite bool_decide_eq_true_2
          by (split; [exact Hlast | exact (last_token y _ Ht Hlast)]).
        cbn [cmdLineArgs set_cmdLineArgs].
        replace (length toks - 1) with y by lia. reflexivity.
      * rewrite Hkeep. exact Hio.
    + destruct (toks !! (y + 1)) as [u|] eqn:Hu;
        [|apply lookup_ge_None in Hu; lia].
      rewrite (loaded_token _ u Hu). eexists. split; [reflexivity|].
      split; cbn [fst snd].
      * rewrite bool_decide_eq_false_2 by (intros [? _]; contradiction).
        exact Hargs.
      * rewrite Hkeep. exact Hio.
  - eexists. split; [reflexivity|]. split; cbn [fst snd].
    + rewrite bool_decide_eq_false_2; [exact Hargs|].
      intros [Hlast Hend]. rewrite (last_token y t Ht Hlast) in Hend.
      injection Hend as ->. discriminate Hamp.
    + rewrite Hkeep. exact Hio.
Qed.

(** On a line that starts with a command, the scan and the clearing loop
    return, and leave as exec vector the tokens before the first
    redirection operator, without an [&] in last position. *)
Lemma extract_redirection_spec sh :
  cmdLineArgs sh = loaded toks ->
  exists sh', extract_redirection (length toks) sh = Ok sh'
              /\ argv_of (cmdLineArgs sh') = exec_vector toks.
Proof.
  intros Hload. pose proof Hwf as (Hlen & _ & _).
  destruct (for_range_total (scanned toks) redirect_step (length toks) 0 (sh, 0))
    as ([sh1 io] & Hrun & Hargs & Hio).
  { intros y t Hy. apply redirect_step_scanned. lia. }
  { split; cbn [fst snd]; [|reflexivity].
    rewrite bool_decide_eq_false_2 by lia. exact Hload. }
  cbn [fst snd Nat.add] in Hargs, Hio. rewrite take_ge in Hio by lia.
  unfold extract_redirection. rewrite Hrun. cbn [mbind result_bind].
  unfold clear_from, exec_vector, cut_point.
  assert (Hlen1 : length (cmdLineArgs sh1) = MAX_ARGS).
  { rewrite Hargs. destruct (bool_decide _);
      [rewrite length_insert|]; apply loaded_length. }
  destruct (first_redirect toks) as [i|] eqn:Hfr; cbn [default] in Hio;
    unfold id in Hio; subst io.
  - pose proof Hfr as Hi. rewrite <- (take_ge toks (length toks)) in Hi by lia.
    apply first_redirect_not_head in Hi.
    destruct (Nat.eqb_spec i 0) as [|_]; [lia|].
    destruct (clear_loop (MAX_ARGS - i) i (cmdLineArgs sh1))
      as (l' & Hclear & Hlow & Hhigh); [lia|].
    rewrite Hclear. cbn [mbind result_bind]. eexists. split; [reflexivity|].
    cbn [cmdLineArgs set_cmdLineArgs]. apply argv_of_lookup.
    + intros j t Hj. rewrite lookup_take in Hj.
      destruct (decide (j < i)) as [Hji|]; [|discriminate].
      rewrite Hlow by exact Hji. rewrite Hargs.
      destruct (bool_decide _);
        [rewrite list_lookup_insert_ne by lia|]; apply loaded_token, Hj.
    + rewrite length_take. apply Hhigh. lia.
  - cbn [Nat.eqb mbind result_bind]. eexists. split; [reflexivity|].
    cbn [cmdLineArgs set_cmdLineArgs]. rewrite Hargs.
    destruct (decide (last toks = Some "&")) as [Hamp|Hamp].
    + rewrite !bool_decide_eq_true_2 by auto. apply argv_of_lookup.
      * intros j t Hj. rewrite lookup_take in Hj.
        destruct (decide (j < length toks - 1)) as [Hji|]; [|discriminate].
        rewrite list_lookup_insert_ne by lia. apply loaded_token, Hj.
      * rewrite length_take. replace (_ `min` _) with (length toks - 1) by lia.
        apply list_lookup_insert_eq. rewrite loaded_length. lia.
    + rewrite !bool_decide_eq_false_2 by tauto. rewrite take_ge by lia.
      apply argv_of_lookup; [apply loaded_token | apply loaded_null; lia].
Qed.

(** The exec vector of the specification holds no redirection operator and
    ends before an [&] in last position. *)
Lemma exec_vector_clean :
  Forall (fun t => is_redirect t = false) (exec_vector toks)
  /\ (last toks = Some "&" -> length (exec_vector toks) < length toks).
Proof.
  unfold exec_vector, cut_point.
  destruct (first_redirect toks) as [i|] eqn:Hfr.
  - split.
    + apply Forall_lookup. intros j t Hj. rewrite lookup_take in Hj.
      destruct (decide (j < i)) as [Hji|]; [|discriminate].
      exact (first_redirect_before toks i Hfr j t Hji Hj).
    + intros _. rewrite length_take.
      destruct (first_redirect_bound _ _ Hfr) as [Hi _]. lia.
  - split.
    + apply Forall_take, first_redirect_none, Hfr.
    + intros Hamp. rewrite bool_decide_eq_true_2 by exact Hamp.
      rewrite length_take. destruct Hwf as [? _]. lia.
Qed.
End Extractor.

Example tokens_are_loaded :
  token_loop (S (strlen "-l > out &")) 4242 "-l > out &" 1
             (<[0%nat := Some "ls"]> (replicate MAX_ARGS None))
  = Ok (5%nat, loaded ["ls"; "-l"; ">"; "out"; "&"]).
Proof. vm_compute. reflexivity. Qed.

Example command_first_example : command_first ["ls"; "-l"; ">"; "out"; "&"].
Proof.
  split; [vm_compute; lia|].
  split; intros t Ht; injection Ht as <-; reflexivity.
Qed.

Example exec_vector_example :
  exec_vector ["ls"; "-l"; ">"; "out"; "&"] = ["ls"; "-l"]
  /\ exec_vector ["sleep"; "5"; "&"] = ["sleep"; "5"]
  /\ exec_vector ["echo"; "&"; "x"] = ["echo"; "&"; "x"].
Proof. repeat split; reflexivity. Qed.

(** C5, evaluated at a line that starts with an operator: [IOstart] stays
    [0], which also means that no operator was seen, nothing is cleared,
    and the exec vector keeps the operator and the file name. *)
Theorem C5_leading_operator_kept :
  read_command 4242 (line "< in.txt")
  = Ok (["<"; "in.txt"], Some "in.txt", None, 0)
  /\ read_command 4242 (line "> out cat")
     = Ok ([">"; "out"; "cat"], None, Some "out", 0)
  /\ read_command 4242 (line "< in > out")
     = Ok (["<"; "in"], Some "in", Some "out", 0).
Proof. repeat split; vm_compute; reflexivity. Qed.

(** ** Lines of spaces *)

Lemma skip_delim_blanks n : skip_delim " " (blanks n) = "".
Proof. induction n as [|n IH]; [reflexivity | exact IH]. Qed.

Lemma until_newline_blanks n r :
  until_delim newline (blanks n +:+ String newline r) = (blanks n, r).
Proof.
  induction n as [|n IH]; [reflexivity|].
  cbn [blanks]. rewrite append_cons. cbn [until_delim].
  change (Ascii.eqb " " newline) with false. cbn match.
  rewrite IH. reflexivity.
Qed.

Lemma strtok_buffer_blanks n :
  strtok_buffer newline (line (blanks (S n))) = blanks (S n).
Proof.
  unfold line. cbn [blanks]. rewrite append_cons. cbn [strtok_buffer].
  change (Ascii.eqb " " newline) with false. cbn match.
  rewrite <- append_cons.
  change (String " " (blanks n)) with (blanks (S n)).
  rewrite until_newline_blanks. reflexivity.
Qed.

Lemma strlen_blanks n : strlen (blanks n) = n.
Proof. unfold strlen. induction n as [|n IH]; cbn; [reflexivity|]. f_equal. exact IH. Qed.

(** Every line of one or more spaces is taken for a command and leaves
    [parse_line] without a first token. *)
Lemma blank_line_no_token n p sh :
  valid_input (line (blanks (S n))) = true
  /\ parse_line p (line (blanks (S n))) sh = Fault NullDeref.
Proof.
  split.
  - unfold valid_input, line. rewrite strlen_append, strlen_blanks.
    cbn [blanks]. rewrite append_cons.
    replace (1 <? S n + strlen (String newline ""))%nat with true
      by (symmetry; apply Nat.ltb_lt; cbn; lia).
    reflexivity.
  - unfold parse_line. rewrite strtok_buffer_blanks.
    unfold strtok_r. rewrite skip_delim_blanks. reflexivity.
Qed.

(** C7, evaluated at a line made of one space: the line passes the test
    for empty lines and comments, [strtok_r] finds no token, and the
    [NULL] it returns is handed to [strlen]; the next line is never read. *)
Theorem C7_blank_line_faults :
  valid_input (line " ") = true
  /\ strtok_r (strtok_buffer newline (line " ")) " " = None
  /\ getCommandLineArguments (quiet_world 4242 (line " " +:+ line "ls"))
                             (shellSetUp 4242)
     = Fault NullDeref.
Proof. repeat split; vm_compute; reflexivity. Qed.

(** ** Reaping background processes *)

Lemma reap_slot_inv poll x bg cs tr :
  exists bg' cs' ext,
    reap_slot poll x (bg, cs, tr) = (bg', cs', tr ++ ext)
    /\ Forall reap_event ext
    /\ (bg' = bg \/ bg' = <[x := 0]> bg).
Proof.
  unfold reap_slot. destruct (bg !! x) as [p|] eqn:Hx.
  - destruct (p =? 0).
    + exists bg, cs, []. rewrite app_nil_r. auto.
    + destruct (poll p) as [|s|].
      * exists bg, cs, [WaitPid p WNOHANG]. repeat split; auto.
        repeat constructor.
      * exists (<[x := 0]> bg), s,
          [WaitPid p WNOHANG; Stdout (background_done p s)].
        repeat split; auto. repeat constructor. cbn. eauto.
      * exists (<[x := 0]> bg), cs,
          [WaitPid p WNOHANG; Stdout (background_done p cs)].
        repeat split; auto. repeat constructor. cbn. eauto.
  - exists bg, cs, []. rewrite app_nil_r. auto.
Qed.

Lemma reap_slot_terminated poll x bg cs tr p s :
  bg !! x = Some p -> p <> 0 -> poll p = Terminated s ->
  reap_slot poll x (bg, cs, tr)
  = (<[x := 0]> bg, s, tr ++ [WaitPid p WNOHANG; Stdout (background_done p s)]).
Proof.
  intros Hx Hp Hpoll. unfold reap_slot. rewrite Hx.
  destruct (Z.eqb_spec p 0); [contradiction|]. rewrite Hpoll. reflexivity.
Qed.

Lemma zero_stays (bg : list Z) (x i : nat) :
  bg !! i = Some 0 -> <[x := 0]> bg !! i = Some 0.
Proof.
  intros Hi. destruct (decide (x = i)) as [->|Hne].
  - apply list_lookup_insert_eq. eapply lookup_lt_Some, Hi.
  - rewrite list_lookup_insert_ne by exact Hne. exact Hi.
Qed.

Lemma reap_fold_inv poll (l : list nat) : forall bg cs tr,
  exists bg' cs' ext,
    foldl (fun st x => reap_slot poll x st) (bg, cs, tr) l = (bg', cs', tr ++ ext)
    /\ Forall reap_event ext
    /\ length bg' = length bg
    /\ (forall i, bg !! i = Some 0 -> bg' !! i = Some 0)
    /\ (forall i, i ∉ l -> bg' !! i = bg !! i).
Proof.
  induction l as [|a l IH]; intros bg cs tr.
  - exists bg, cs, []. rewrite app_nil_r. cbn. auto.
  - cbn [foldl].
    destruct (reap_slot_inv poll a bg cs tr) as (bg1 & cs1 & e1 & -> & He1 & Hbg1).
    destruct (IH bg1 cs1 (tr ++ e1)) as (bg2 & cs2 & e2 & -> & He2 & Hlen & Hz & Hout).
    exists bg2, cs2, (e1 ++ e2). rewrite app_assoc.
    split; [reflexivity|]. split; [apply Forall_app; auto|].
    destruct Hbg1 as [-> | ->].
    + split; [exact Hlen|]. split; [exact Hz|].
      intros i Hi. apply Hout. intros Hin. apply Hi. right. exact Hin.
    + split; [rewrite Hlen; apply length_insert|].
      split; [intros i Hi; apply Hz, zero_stays, Hi|].
      intros i Hi. rewrite Hout by (intros Hin; apply Hi; right; exact Hin).
      apply list_lookup_insert_ne. intros ->. apply Hi. left.
Qed.

Lemma reap_fold_freed poll (l : list nat) : forall bg cs tr i p s,
  i ∈ l -> bg !! i = Some p -> p <> 0 -> poll p = Terminated s ->
  let '(bg', _, tr') := foldl (fun st x => reap_slot poll x st) (bg, cs, tr) l in
  bg' !! i = Some 0 /\ Stdout (background_done p s) ∈ tr'.
Proof.
  induction l as [|a l IH]; intros bg cs tr i p s Hin Hi Hp Hpoll.
  - inversion Hin.
  - cbn [foldl]. destruct (decide (a = i)) as [->|Hne].
    + rewrite (reap_slot_terminated poll i bg cs tr p s Hi Hp Hpoll).
      destruct (reap_fold_inv poll l (<[i := 0]> bg) s
                  (tr ++ [WaitPid p WNOHANG; Stdout (background_done p s)]))
        as (bg2 & cs2 & e2 & -> & _ & _ & Hz & _).
      split.
      * apply Hz, list_lookup_insert_eq. eapply lookup_lt_Some, Hi.
      * rewrite !elem_of_app. left. right. right. left.
    + apply elem_of_cons in Hin as [->|Hin]; [contradiction|].
      destruct (reap_slot_inv poll a bg cs tr) as (bg1 & cs1 & e1 & -> & _ & Hbg1).
      apply IH; try assumption.
      destruct Hbg1 as [-> | ->]; [exact Hi|].
      rewrite list_lookup_insert_ne by exact Hne. exact Hi.
Qed.



Lemma reap_trace w sh :
  exists ext, (checkBackgroundProcessTermination w sh).2 = Enter reap_fn :: ext
              /\ Forall reap_event ext.
Proof.
  unfold checkBackgroundProcessTermination.
  destruct (reap_fold_inv (w_poll w (w_clock w)) (seq 0 BG_SLOTS)
              (bgProcesses sh) (w_uninit w) [Enter reap_fn])
    as (bg & cs & ext & -> & Hext & _).
  exists ext. split; [reflexivity | exact Hext].
Qed.

Lemma background_done_not_prompt p s : streq (background_done p s) prompt = false.
Proof.
  unfold background_done, streq, prompt.
  destruct (WIFEXITED s); apply String.eqb_neq; intros H;
    cbn [String.append] in H; discriminate H.
Qed.

Lemma reap_events_filtered ext :
  Forall reap_event ext -> filter (fun e => reap_or_prompt e = true) ext = [].
Proof.
  induction 1 as [|e ext He _ IH]; [reflexivity|].
  rewrite filter_cons_False; [exact IH|].
  destruct e; cbn in *; try discriminate; try contradiction.
  destruct He as (p & s & ->). rewrite background_done_not_prompt. discriminate.
Qed.

Lemma reap_then_prompt_filtered w sh :
  filter (fun e => reap_or_prompt e = true)
         ((checkBackgroundProcessTermination w sh).2 ++ [Stdout prompt])
  = [Enter reap_fn; Stdout prompt].
Proof.
  destruct (reap_trace w sh) as (ext & -> & Hext).
  rewrite list.filter_app, filter_cons_True by reflexivity.
  rewrite (reap_events_filtered ext Hext). reflexivity.
Qed.

Lemma prompt_loop_unfold fuel w sh tr :
  prompt_loop (S fuel) w sh tr =
    let '(sh1, tr1) := checkBackgroundProcessTermination w sh in
    let tr2 := tr ++ tr1 ++ [Stdout prompt] in
    match fgets MAX_INPUT (w_stdin w) with
    | None => Fault NoInput
    | Some (userInput, rest) =>
        if valid_input userInput
        then Ok (after_read rest w, sh1, userInput, tr2)
        else prompt_loop fuel (after_read rest w) sh1 tr2
    end.
Proof. reflexivity. Qed.

Lemma prompt_loop_trace fuel : forall w sh tr0 w' sh' userInput tr,
  prompt_loop fuel w sh tr0 = Ok (w', sh', userInput, tr) ->
  exists n,
    filter (fun e => reap_or_prompt e = true) tr
    = filter (fun e => reap_or_prompt e = true) tr0
      ++ concat (replicate (S n) [Enter reap_fn; Stdout prompt]).
Proof.
  induction fuel as [|fuel IH]; intros w sh tr0 w' sh' userInput tr Hrun;
    [discriminate|].
  rewrite prompt_loop_unfold in Hrun.
  pose proof (reap_then_prompt_filtered w sh) as Hstep.
  destruct (checkBackgroundProcessTermination w sh) as [sh1 tr1].
  cbn [snd] in Hstep.
  destruct (fgets MAX_INPUT (w_stdin w)) as [[l rest]|]; [|discriminate].
  destruct (valid_input l).
  - injection Hrun as _ _ _ <-. exists 0%nat.
    rewrite list.filter_app, Hstep. cbn. reflexivity.
  - apply IH in Hrun as [n Hn]. exists (S n).
    rewrite Hn, list.filter_app, Hstep.
    rewrite <- app_assoc. reflexivity.
Qed.

(** Reading a line always consumes input, so the fuel given by
    [getCommandLineArguments] is never used up. *)
Lemma fgets_go_S n c r :
  fgets_go (S n) (String c r)
  = if Ascii.eqb c newline then (String c EmptyString, r)
    else let '(l, rest) := fgets_go n r in (String c l, rest).
Proof. reflexivity. Qed.

Lemma fgets_go_le n : forall s l rest,
  fgets_go n s = (l, rest) -> (String.length rest <= String.length s)%nat.
Proof.
  induction n as [|n IH]; intros s l rest H.
  - destruct s; inversion H; subst; lia.
  - destruct s as [|c r]; [inversion H; subst; cbn; lia|].
    rewrite fgets_go_S in H.
    destruct (Ascii.eqb c newline); [inversion H; subst; cbn; lia|].
    destruct (fgets_go n r) as [l1 r1] eqn:Hgo.
    inversion H; subst. apply IH in Hgo. cbn [String.length]. lia.
Qed.

Lemma fgets_go_shorter n c s l rest :
  fgets_go (S n) (String c s) = (l, rest) ->
  (String.length rest < String.length (String c s))%nat.
Proof.
  rewrite fgets_go_S. cbn [String.length].
  destruct (Ascii.eqb c newline); [inversion 1; subst; lia|].
  destruct (fgets_go n s) as [l1 r1] eqn:Hgo.
  inversion 1; subst. apply fgets_go_le in Hgo. lia.
Qed.

Lemma prompt_loop_fuel fuel : forall w sh tr0,
  (String.length (w_stdin w) < fuel)%nat ->
  prompt_loop fuel w sh tr0 <> Fault OutOfFuel.
Proof.
  induction fuel as [|fuel IH]; intros w sh tr0 Hlen; [lia|].
  rewrite prompt_loop_unfold.
  destruct (checkBackgroundProcessTermination w sh) as [sh1 tr1].
  unfold fgets. destruct (w_stdin w) as [|c s] eqn:Hin; [discriminate|].
  change (MAX_INPUT - 1)%nat with (S 2046).
  destruct (fgets_go (S 2046) (String c s)) as [l rest] eqn:Hgo.
  destruct (valid_input l); [discriminate|].
  apply IH. apply fgets_go_shorter in Hgo. cbn in *. lia.
Qed.

Lemma all_ended_decode : forallb decodes all_ended = true.
Proof. vm_compute. reflexivity. Qed.

Lemma all_ended_complete (e : ended) : ended_ok e = true -> e ∈ all_ended.
Proof.
  unfold all_ended. destruct e as [v|s]; cbn [ended_ok]; intros H;
    apply andb_prop in H as [Hlo Hhi];
    apply Z.leb_le in Hlo; apply Z.ltb_lt in Hhi; apply elem_of_app.
  - left. apply list_elem_of_fmap. exists (Z.to_nat v).
    split; [cbn; f_equal; lia | apply elem_of_seq; lia].
  - right. apply list_elem_of_fmap. exists (Z.to_nat s).
    split; [cbn; f_equal; lia | apply elem_of_seq; lia].
Qed.

Lemma ended_decodes (e : ended) : ended_ok e = true -> decodes e = true.
Proof.
  intros He. pose proof all_ended_decode as Hall.
  rewrite forallb_forall in Hall. apply Hall.
  apply list_elem_of_In, all_ended_complete, He.
Qed.







(** ** The recorded foreground status *)

Lemma for_range_inv {St : Type} (P : St -> Prop) (body : nat -> St -> result St) :
  (forall x s s', P s -> body x s = Ok s' -> P s') ->
  forall n x s s', P s -> for_range x n body s = Ok s' -> P s'.
Proof.
  intros Hbody. induction n as [|n IH]; intros x s s' Hs Hrun; cbn in Hrun.
  - injection Hrun as <-. exact Hs.
  - destruct (body x s) as [s1|f] eqn:Hstep; [|discriminate].
    eapply IH; [eapply Hbody; eassumption | exact Hrun].
Qed.

Lemma reap_exitStatus w sh :
  exitStatus (checkBackgroundProcessTermination w sh).1 = exitStatus sh.
Proof.
  unfold checkBackgroundProcessTermination.
  destruct (foldl _ _ _) as [[bg cs] tr]. reflexivity.
Qed.

Lemma cd_shell_unchanged w sh w' sh' tr :
  changeShellDirectory w sh = Ok (w', sh', tr) -> sh' = sh.
Proof.
  unfold changeShellDirectory.
  destruct (cmdLineArgs sh !! 1%nat) as [[path|]|]; intros H;
    [| |discriminate]; injection H as _ <- _; reflexivity.
Qed.

Lemma register_exitStatus w fork sh :
  bgFlag sh = 1 ->
  exitStatus (parent_branch w NORMAL (set_childPID fork sh)).1 = exitStatus sh.
Proof. intros Hbg. unfold parent_branch. cbn. rewrite Hbg. reflexivity. Qed.

Lemma redirect_step_exitStatus x st st' :
  redirect_step x st = Ok st' -> exitStatus st'.1 = exitStatus st.1.
Proof.
  destruct st as [sh IOstart]. unfold redirect_step.
  destruct (cmdLineArgs sh !! x) as [[a|]|]; try discriminate.
  destruct (streq a "<"); [|destruct (streq a ">"); [|destruct (streq a "&")]];
    try (destruct (cmdLineArgs sh !! (x + 1)%nat) as [[f|]|]; try discriminate);
    intros H; injection H as <-; reflexivity.
Qed.

Lemma extract_redirection_exitStatus cmdNumber sh sh' :
  extract_redirection cmdNumber sh = Ok sh' -> exitStatus sh' = exitStatus sh.
Proof.
  unfold extract_redirection.
  destruct (for_range 0 cmdNumber redirect_step (sh, 0%nat))
    as [[sh1 IOstart]|] eqn:Hscan; [|discriminate].
  cbn [mbind result_bind].
  destruct (clear_from IOstart (cmdLineArgs sh1)) as [args'|]; [|discriminate].
  cbn [mbind result_bind]. intros H. injection H as <-.
  apply (for_range_inv
           (fun st => exitStatus st.1 = exitStatus sh) redirect_step) in Hscan.
  - exact Hscan.
  - intros x s s' Hs Hstep. rewrite <- Hs.
    eapply redirect_step_exitStatus, Hstep.
  - reflexivity.
Qed.

Lemma parse_line_exitStatus p userInput sh sh' :
  parse_line p userInput sh = Ok sh' -> exitStatus sh' = exitStatus sh.
Proof.
  unfold parse_line.
  destruct (strtok_r _ _) as [[token saveptr]|]; [|discriminate].
  destruct (0 <? length (cmdLineArgs sh))%nat; [|discriminate].
  destruct (token_loop _ _ _ _ _) as [[cmdNumber args]|]; [|discriminate].
  cbn [mbind result_bind]. intros H.
  apply extract_redirection_exitStatus in H. exact H.
Qed.

Lemma prompt_loop_exitStatus fuel : forall w sh tr0 w' sh' userInput tr,
  prompt_loop fuel w sh tr0 = Ok (w', sh', userInput, tr) ->
  exitStatus sh' = exitStatus sh.
Proof.
  induction fuel as [|fuel IH]; intros w sh tr0 w' sh' userInput tr Hrun;
    [discriminate|].
  rewrite prompt_loop_unfold in Hrun.
  pose proof (reap_exitStatus w sh) as Hreap.
  destruct (checkBackgroundProcessTermination w sh) as [sh1 tr1].
  cbn [fst] in Hreap.
  destruct (fgets MAX_INPUT (w_stdin w)) as [[l rest]|]; [|discriminate].
  destruct (valid_input l).
  - injection Hrun as _ <- _ _. exact Hreap.
  - apply IH in Hrun. congruence.
Qed.

Lemma read_exitStatus w sh w' sh' tr :
  getCommandLineArguments w sh = Ok (w', sh', tr) ->
  exitStatus sh' = exitStatus sh.
Proof.
  unfold getCommandLineArguments.
  destruct (prompt_loop _ w sh []) as [[[[w1 sh1] userInput] tr1]|] eqn:Hloop;
    [|discriminate].
  cbn [mbind result_bind].
  destruct (parse_line _ userInput sh1) as [sh2|] eqn:Hparse; [|discriminate].
  cbn [mbind result_bind]. intros H. injection H as _ <- _.
  apply prompt_loop_exitStatus in Hloop. apply parse_line_exitStatus in Hparse.
  congruence.
Qed.

Lemma main_dispatch_exitStatus w ce fgFlag fork sh w' sh' tr :
  main_dispatch w ce fgFlag fork sh = Ok (Looping w' sh' tr) ->
  Forall (fun e => blocking_wait e = false) tr ->
  exitStatus sh' = exitStatus sh.
Proof.
  unfold main_dispatch.
  destruct (cmdLineArgs sh !! 0%nat) as [[c|]|]; try discriminate.
  destruct (streq c "exit"); [intros [= _ <- _] _; reflexivity|].
  destruct (streq c "status"); [intros [= _ <- _] _; reflexivity|].
  destruct (streq c "cd").
  - destruct (changeShellDirectory w sh) as [[[w1 sh1] tr1]|] eqn:Hcd;
      [|discriminate].
    cbn [mbind result_bind]. intros [= _ <- _] _.
    apply cd_shell_unchanged in Hcd. subst. reflexivity.
  - unfold createNewProcess.
    destruct (fork =? -1); [discriminate|].
    destruct (fork =? 0); [destruct (child_branch _ _ _); discriminate|].
    unfold parent_branch.
    destruct ((bgFlag (set_childPID fork sh) =? 1) && (fgFlag =? 0)).
    + intros [= _ <- _] _. reflexivity.
    + intros [= _ _ <-] Hquiet. apply Forall_cons in Hquiet as [Hwait _].
      discriminate Hwait.
Qed.

Lemma reset_exitStatus ptr_size sh :
  exitStatus (commandLineArgumentReset ptr_size sh) = exitStatus sh.
Proof. reflexivity. Qed.

Lemma main_pass_exitStatus ptr_size w ce fgFlag fork sh w' sh' tr :
  main_pass ptr_size w ce fgFlag fork sh = Ok (Looping w' sh' tr) ->
  Forall (fun e => blocking_wait e = false) tr ->
  exitStatus sh' = exitStatus sh.
Proof.
  unfold main_pass.
  destruct (getCommandLineArguments w sh) as [[[w1 sh1] tr1]|] eqn:Hread;
    [|discriminate].
  cbn [mbind result_bind].
  destruct (main_dispatch w1 ce fgFlag fork sh1) as [[w2 sh2 tr2| |]|] eqn:Hd;
    cbn [mbind result_bind]; try discriminate.
  intros [= _ <- <-] Hquiet. apply Forall_app in Hquiet as [_ Hquiet].
  rewrite reset_exitStatus, (main_dispatch_exitStatus _ _ _ _ _ _ _ _ Hd Hquiet).
  eapply read_exitStatus, Hread.
Qed.

Lemma quiet_step_exitStatus sh sh' :
  quiet_step sh sh' -> exitStatus sh' = exitStatus sh.
Proof.
  destruct 1 as [w sh w' sh' tr Hcd | sh | sh | w fork sh Hbg | w sh
                | w sh w' sh' tr Hread | ptr_size sh
                | ptr_size w ce fgFlag fork sh w' sh' tr Hpass Hquiet].
  - apply cd_shell_unchanged in Hcd. subst. reflexivity.
  - reflexivity.
  - reflexivity.
  - apply register_exitStatus, Hbg.
  - apply reap_exitStatus.
  - eapply read_exitStatus, Hread.
  - apply reset_exitStatus.
  - eapply main_pass_exitStatus; eassumption.
Qed.

(** C9: the built-ins, the registration of a background job, reaping,
    reading a command and the reset after a command leave the recorded
    foreground status as it is, and so does every whole pass through the
    loop of [main] in which the shell does not wait for a child, over any
    sequence of such steps, so that [status] prints the same text after
    them as before; the status is written where the parent waits for a
    child in the foreground, with what that wait stores. *)
Theorem C9_foreground_status_frame (sh sh' : shell)
    (Hsteps : rtc quiet_step sh sh') :
  exitStatus sh' = exitStatus sh
  /\ (printShellStatus sh').2 = (printShellStatus sh).2
  /\ forall w fg status,
       ~ (bgFlag sh = 1 /\ fg = NORMAL) ->
       w_await w (childPID sh) = Some status ->
       exitStatus (parent_branch w fg sh).1 = status.
Proof.
  assert (Hframe : exitStatus sh' = exitStatus sh).
  { induction Hsteps as [sh | sh sh1 sh2 Hstep _ IH]; [reflexivity|].
    rewrite IH. apply quiet_step_exitStatus, Hstep. }
  split; [exact Hframe|]. split.
  - unfold printShellStatus. cbn [snd]. rewrite Hframe. reflexivity.
  - intros w fg status Hfg Hwait. unfold parent_branch.
    destruct (Z.eqb_spec (bgFlag sh) 1) as [Hb|Hb];
      [destruct (Z.eqb_spec fg 0) as [Hf|Hf]|]; cbn [andb fst];
      try (rewrite Hwait; reflexivity).
    exfalso. apply Hfg. split; assumption.
Qed.

Lemma session_pass2_runs :
  exists tr,
    main_pass 8 (pass_world session_pass1) all_succeed NORMAL 700
              (pass_shell session_pass1)
    = Ok (Looping (pass_world session_pass2) (pass_shell session_pass2) tr)
    /\ Forall (fun e => blocking_wait e = false) tr.
Proof.
  exists (pass_trace session_pass2). split.
  - vm_compute. reflexivity.
  - apply Forall_forall. intros e He. vm_compute in He.
    repeat (apply elem_of_cons in He as [->|He]; [reflexivity|]).
    inversion He.
Qed.

Lemma session_pass3_runs :
  exists tr,
    main_pass 8 (pass_world session_pass2) all_succeed NORMAL 701
              (pass_shell session_pass2)
    = Ok (Looping (pass_world session_pass3) (pass_shell session_pass3) tr)
    /\ Forall (fun e => blocking_wait e = false) tr.
Proof.
  exists (pass_trace session_pass3). split.
  - vm_compute. reflexivity.
  - apply Forall_forall. intros e He. vm_compute in He.
    repeat (apply elem_of_cons in He as [->|He]; [reflexivity|]).
    inversion He.
Qed.

(** C9 on a session of [main]: after the foreground command [false] has
    left status 256 (exit value 1), the passes over [status] and over
    [sleep 5 &], each with its reaping, its dispatch and its reset, leave
    that status, and [status] still prints the same line. *)
Lemma C9_foreground_status_frame_witness :
  rtc quiet_step (pass_shell session_pass1) (pass_shell session_pass3)
  /\ exitStatus (pass_shell session_pass1) = 256
  /\ exitStatus (pass_shell session_pass3) = exitStatus (pass_shell session_pass1)
  /\ (printShellStatus (pass_shell session_pass3)).2
     = (printShellStatus (pass_shell session_pass1)).2
  /\ (printShellStatus (pass_shell session_pass1)).2
     = [Stdout (line "exit value 1")].
Proof.
  assert (Hsteps :
    rtc quiet_step (pass_shell session_pass1) (pass_shell session_pass3)).
  { destruct session_pass2_runs as (tr2 & Hrun2 & Hquiet2).
    destruct session_pass3_runs as (tr3 & Hrun3 & Hquiet3).
    eapply rtc_l; [exact (quiet_pass _ _ _ _ _ _ _ _ _ Hrun2 Hquiet2)|].
    eapply rtc_l; [exact (quiet_pass _ _ _ _ _ _ _ _ _ Hrun3 Hquiet3)|].
    apply rtc_refl. }
  destruct (C9_foreground_status_frame _ _ Hsteps) as (Hsame & Hprint & _).
  split; [exact Hsteps|]. split; [vm_compute; reflexivity|].
  split; [exact Hsame|]. split; [exact Hprint|].
  vm_compute. reflexivity.
Defined.

(** * Further properties of the code *)

(** ** Any number of mode signals *)

Lemma flip_parity (f k : Z) :
  f = NORMAL \/ f = FOREGROUND_ONLY ->
  (1 - f + k) mod 2 = (f + Z.succ k) mod 2.
Proof.
  intros [-> | ->]; unfold NORMAL, FOREGROUND_ONLY.
  - f_equal. lia.
  - replace (1 + Z.succ k) with (1 - 1 + k + 1 * 2) by lia.
    symmetry. apply Z.mod_add. lia.
Qed.

Lemma deliveries_from (n : nat) : forall f,
  f = NORMAL \/ f = FOREGROUND_ONLY ->
  (deliveries n f).1 = (f + Z.of_nat n) mod 2
  /\ length (deliveries n f).2 = n
  /\ forall i, (i < n)%nat -> (deliveries n f).2 !! i = Some (notice_at f i).
Proof.
  induction n as [|n IH]; intros f Hf.
  - cbn [deliveries fst snd]. rewrite Z.add_0_r.
    split; [destruct Hf as [-> | ->]; reflexivity|].
    split; [reflexivity | intros i Hi; lia].
  - cbn [deliveries].
    assert (Hstep : handle_SIGTSTP f = (1 - f, [notice_at f 0])).
    { destruct Hf as [-> | ->]; reflexivity. }
    rewrite Hstep.
    destruct (IH (1 - f)) as (Hflag & Hlen & Hnote).
    { destruct Hf as [-> | ->]; [right | left]; reflexivity. }
    destruct (deliveries n (1 - f)) as [f2 t2]. cbn [fst snd] in *.
    split.
    { rewrite Hflag, Nat2Z.inj_succ. apply flip_parity, Hf. }
    split; [cbn; lia|].
    intros [|i] Hi; [reflexivity|]. cbn [app lookup list_lookup].
    rewrite Hnote by lia. unfold notice_at.
    rewrite Nat2Z.inj_succ, (flip_parity f _ Hf). reflexivity.
Qed.

(** X1: after [n] deliveries of the mode signal to a freshly started shell
    the flag is [n mod 2], so an even number of deliveries leaves background
    execution enabled and an odd number disables it; every delivery writes
    exactly one notice, entering and exiting in turn, the first one
    entering. *)
Theorem X1_mode_after_n_signals (n : nat) :
  (deliveries n fgFlag_init).1 = Z.of_nat n mod 2
  /\ length (deliveries n fgFlag_init).2 = n
  /\ forall i, (i < n)%nat ->
       (deliveries n fgFlag_init).2 !! i
       = Some (Stdout (if Nat.even i then enterMessage else exitMessage)).
Proof.
  destruct (deliveries_from n fgFlag_init) as (Hflag & Hlen & Hnote);
    [left; reflexivity|].
  split; [exact Hflag|]. split; [exact Hlen|].
  intros i Hi. rewrite (Hnote i Hi). unfold notice_at, fgFlag_init.
  rewrite Z.add_0_l. f_equal.
  destruct (Nat.even i) eqn:Hev.
  - apply Nat.even_spec in Hev as [k ->].
    rewrite Nat2Z.inj_mul, Z.mul_comm, Z.mod_mul by lia. reflexivity.
  - assert (Hodd : Nat.odd i = true) by (rewrite <- Nat.negb_even, Hev; reflexivity).
    apply Nat.odd_spec in Hodd as [k ->].
    rewrite Nat2Z.inj_add, Nat2Z.inj_mul, Z.add_comm, Z.mul_comm.
    rewrite Z.mod_add by lia. reflexivity.
Qed.

(** ** [exitSmallShell] *)

(** X2: [exit] sends SIGKILL to exactly the pids held in the fifty slots of
    the table, never to pid 0 (which would address the whole process group),
    does nothing else, leaves the table as it is and sets the exit flag. *)
Theorem X2_exit_kills_tracked_jobs (sh : shell) :
  (forall q signo,
     Kill q signo ∈ (exitSmallShell sh).2
     <-> signo = SIGKILL /\ q <> 0 /\ q ∈ take BG_SLOTS (bgProcesses sh))
  /\ Forall (fun e => is_kill e = true) (exitSmallShell sh).2
  /\ bgProcesses (exitSmallShell sh).1 = bgProcesses sh
  /\ exitShell (exitSmallShell sh).1 = 1.
Proof.
  unfold exitSmallShell. cbn [fst snd].
  split; [|split; [|split; reflexivity]].
  - intros q signo. rewrite list_elem_of_omap. split.
    + intros (v & Hv & Hkill). destruct (Z.eqb_spec v 0); [discriminate|].
      injection Hkill as -> ->. auto.
    + intros (-> & Hq & Hin). exists q. split; [exact Hin|].
      destruct (Z.eqb_spec q 0); [contradiction | reflexivity].
  - apply Forall_forall. intros e He. apply list_elem_of_omap in He as (v & _ & Hkill).
    destruct (v =? 0); [discriminate|]. injection Hkill as <-. reflexivity.
Qed.

(** ** Wait statuses and the texts printed for them *)

(** X3: the status macros decode what the wait stored: for a child that
    left with exit value 0 to 255, [status] prints [exit value N] and the
    completion notice of a background job says [Exit value N]; for a child
    killed by signal 1 to 126 they print [terminated by signal N] and
    [Terminated by signal N]. *)
Theorem X3_status_texts (p : Z) (e : ended) (He : ended_ok e = true) :
  status_text (wait_status e) = ended_text e
  /\ background_done p (wait_status e) = done_text p e.
Proof.
  pose proof (ended_decodes e He) as Hd. unfold status_text, background_done.
  destruct e as [v|s]; cbn [decodes ended_text done_text] in *.
  - apply andb_prop in Hd as [Hd Hzero]. apply andb_prop in Hd as [Hd _].
    apply andb_prop in Hd as [Hex Hval]. apply Z.eqb_eq in Hval.
    rewrite Hex, Hval. split; [|reflexivity].
    destruct (wait_status (ByExit v) =? 0); [|reflexivity].
    cbn [negb orb] in Hzero. apply Z.eqb_eq in Hzero. subst v. reflexivity.
  - apply andb_prop in Hd as [Hd Hnz]. apply andb_prop in Hd as [Hd _].
    apply andb_prop in Hd as [Hex Hsig].
    apply negb_true_iff in Hex. apply negb_true_iff in Hnz.
    apply Z.eqb_eq in Hsig. rewrite Hex, Hsig, Hnz. split; reflexivity.
Qed.

(** X3 for a child that left with [exit(3)], reported for pid 500. *)
Lemma X3_status_texts_witness :
  ended_ok (ByExit 3) = true
  /\ status_text 768 = "exit value " +:+ fmt_d 3 +:+ String newline ""
  /\ background_done 500 768
     = "Background pid " +:+ fmt_d 500 +:+ " is done: Exit value "
       +:+ fmt_d 3 +:+ String newline "".
Proof.
  split; [reflexivity|]. exact (X3_status_texts 500 (ByExit 3) eq_refl).
Defined.

Lemma WIFSIGNALED_termsig (status : Z) :
  WIFSIGNALED status = true -> WTERMSIG status <> 0.
Proof.
  unfold WIFSIGNALED, WTERMSIG. intros H Hzero. rewrite Hzero in H.
  discriminate H.
Qed.

Lemma signaled_status_text (status : Z) :
  WIFSIGNALED status = true -> status_text status = terminated_by status.
Proof.
  intros Hsig. pose proof (WIFSIGNALED_termsig status Hsig) as Hterm.
  unfold status_text, terminated_by, WIFEXITED.
  destruct (Z.eqb_spec status 0) as [->|_]; [exfalso; apply Hterm; reflexivity|].
  destruct (Z.eqb_spec (WTERMSIG status) 0); [contradiction | reflexivity].
Qed.

(** X4: whenever the parent, having waited for a foreground child, writes a
    notice (the child was ended by a signal), the [status] built-in run next
    prints that same text. *)
Theorem X4_status_repeats_notice (w : world) (fg : Z) (sh : shell) (text : string)
    (Hfg : ~ (bgFlag sh = 1 /\ fg = NORMAL))
    (Hnote : Stdout text ∈ (parent_branch w fg sh).2) :
  (printShellStatus (parent_branch w fg sh).1).2 = [Stdout text].
Proof.
  unfold parent_branch in *.
  assert (Hmode : (bgFlag sh =? 1) && (fg =? 0) = false).
  { destruct (Z.eqb_spec (bgFlag sh) 1), (Z.eqb_spec fg 0); try reflexivity.
    exfalso. apply Hfg. split; assumption. }
  rewrite Hmode in *. cbn [fst snd] in *.
  set (sh' := match w_await w (childPID sh) with
              | Some status => set_exitStatus status sh
              | None => sh
              end) in *.
  destruct (WIFSIGNALED (exitStatus sh')) eqn:Hsig.
  - apply elem_of_cons in Hnote as [Hbad|Hnote]; [discriminate|].
    apply list_elem_of_singleton in Hnote. injection Hnote as ->.
    unfold printShellStatus. cbn [snd].
    rewrite (signaled_status_text _ Hsig). reflexivity.
  - apply list_elem_of_singleton in Hnote. discriminate.
Qed.

(** X4 for a foreground child killed by signal 15. *)
Lemma X4_status_repeats_notice_witness :
  (printShellStatus
     (parent_branch killed_world NORMAL
        (set_childPID 777 (shell_after 4242 (line "sleep 100")))).1).2
  = [Stdout ("terminated by signal " +:+ fmt_d 15 +:+ String newline "")].
Proof.
  apply (X4_status_repeats_notice killed_world NORMAL
           (set_childPID 777 (shell_after 4242 (line "sleep 100")))).
  - vm_compute. intros [H _]. discriminate H.
  - vm_compute. right. left.
Defined.

(** ** The job table: what reaping keeps, and registration *)

Lemma reap_slot_table poll x bg cs tr i :
  (reap_slot poll x (bg, cs, tr)).1.1 !! i
  = if decide (i = x) then slot_after poll <$> bg !! i else bg !! i.
Proof.
  unfold reap_slot. destruct (decide (i = x)) as [->|Hne].
  - destruct (bg !! x) as [p|] eqn:Hx; [|cbn; rewrite Hx; reflexivity].
    pose proof (lookup_lt_Some _ _ _ Hx) as Hlen.
    cbn [fmap option_fmap option_map]. unfold slot_after.
    destruct (Z.eqb_spec p 0) as [->|_]; [cbn; rewrite Hx; reflexivity|].
    destruct (poll p); cbn [fst];
      rewrite ?Hx, ?list_lookup_insert_eq by exact Hlen; reflexivity.
  - destruct (bg !! x) as [p|]; [|reflexivity].
    destruct (p =? 0); [reflexivity|].
    destruct (poll p); cbn [fst];
      rewrite ?list_lookup_insert_ne by congruence; reflexivity.
Qed.

Lemma reap_fold_table poll (l : list nat) : NoDup l -> forall bg cs tr i,
  (foldl (fun st x => reap_slot poll x st) (bg, cs, tr) l).1.1 !! i
  = if decide (i ∈ l) then slot_after poll <$> bg !! i else bg !! i.
Proof.
  induction 1 as [|a l Ha _ IH]; intros bg cs tr i.
  - cbn. destruct (decide (i ∈ [])) as [Hin|_]; [inversion Hin | reflexivity].
  - cbn [foldl]. pose proof (reap_slot_table poll a bg cs tr i) as Hstep.
    destruct (reap_slot poll a (bg, cs, tr)) as [[bg1 cs1] tr1].
    cbn [fst] in Hstep. rewrite IH, Hstep.
    destruct (decide (i = a)) as [->|Hne].
    + rewrite decide_False by exact Ha.
      rewrite decide_True by left. reflexivity.
    + destruct (decide (i ∈ l)) as [Hin|Hout].
      * rewrite decide_True by (right; exact Hin). reflexivity.
      * rewrite decide_False; [reflexivity|].
        intros Hin. apply elem_of_cons in Hin as [?|?]; contradiction.
Qed.

Lemma reap_table w sh i :
  bgProcesses (checkBackgroundProcessTermination w sh).1 !! i
  = if decide (i < BG_SLOTS)%nat
    then slot_after (w_poll w (w_clock w)) <$> bgProcesses sh !! i
    else bgProcesses sh !! i.
Proof.
  unfold checkBackgroundProcessTermination.
  pose proof (reap_fold_table (w_poll w (w_clock w)) (seq 0 BG_SLOTS)
                (NoDup_seq 0 BG_SLOTS) (bgProcesses sh) (w_uninit w)
                [Enter reap_fn] i) as Htab.
  destruct (foldl _ _ _) as [[bg cs] tr]. cbn [fst bgProcesses set_bgProcesses] in *.
  rewrite Htab. destruct (decide (i < BG_SLOTS)%nat) as [Hi|Hi].
  - rewrite decide_True by (apply elem_of_seq; lia). reflexivity.
  - rewrite decide_False by (rewrite elem_of_seq; lia). reflexivity.
Qed.

Lemma reap_frame w sh :
  (checkBackgroundProcessTermination w sh).1
  = set_bgProcesses (bgProcesses (checkBackgroundProcessTermination w sh).1) sh.
Proof.
  unfold checkBackgroundProcessTermination.
  destruct (foldl _ _ _) as [[bg cs] tr]. reflexivity.
Qed.

Lemma reap_length w sh :
  length (bgProcesses (checkBackgroundProcessTermination w sh).1)
  = length (bgProcesses sh).
Proof.
  unfold checkBackgroundProcessTermination.
  destruct (reap_fold_inv (w_poll w (w_clock w)) (seq 0 BG_SLOTS)
              (bgProcesses sh) (w_uninit w) [Enter reap_fn])
    as (bg & cs & ext & -> & _ & Hlen & _). exact Hlen.
Qed.

(** X5: reaping keeps every job that is still running in its slot and
    every free slot free, keeps the size of the table, and changes nothing
    of the shell but the table. *)
Theorem X5_reap_keeps_running_jobs (w : world) (sh : shell) (x : nat) (p : Z)
    (Hslot : bgProcesses sh !! x = Some p)
    (Hkeep : p = 0 \/ w_poll w (w_clock w) p = StillRunning) :
  bgProcesses (checkBackgroundProcessTermination w sh).1 !! x = Some p
  /\ length (bgProcesses (checkBackgroundProcessTermination w sh).1)
     = length (bgProcesses sh)
  /\ (checkBackgroundProcessTermination w sh).1
     = set_bgProcesses (bgProcesses (checkBackgroundProcessTermination w sh).1) sh.
Proof.
  split; [|split; [apply reap_length | apply reap_frame]].
  rewrite reap_table, Hslot. destruct (decide (x < BG_SLOTS)%nat); [|reflexivity].
  cbn. f_equal. unfold slot_after.
  destruct (Z.eqb_spec p 0) as [->|Hp]; [reflexivity|].
  destruct Hkeep as [?|Hrun]; [contradiction|]. rewrite Hrun. reflexivity.
Qed.

(** X5 for the running job 502 in slot 9 of the busy table. *)
Lemma X5_reap_keeps_running_jobs_witness :
  bgProcesses (checkBackgroundProcessTermination busy_world busy_shell).1 !! 9%nat
  = Some 502.
Proof.
  exact (proj1 (X5_reap_keeps_running_jobs busy_world busy_shell 9 502
                  eq_refl (or_intror eq_refl))).
Defined.

Lemma reap_slot_failed poll x bg cs tr p :
  bg !! x = Some p -> p <> 0 -> poll p = WaitFailed ->
  reap_slot poll x (bg, cs, tr)
  = (<[x := 0]> bg, cs, tr ++ [WaitPid p WNOHANG; Stdout (background_done p cs)]).
Proof.
  intros Hx Hp Hpoll. unfold reap_slot. rewrite Hx.
  destruct (Z.eqb_spec p 0); [contradiction|]. rewrite Hpoll. reflexivity.
Qed.

Lemma reap_fold_failed poll (l : list nat) : forall bg cs tr i p,
  i ∈ l -> bg !! i = Some p -> p <> 0 -> poll p = WaitFailed ->
  exists status,
    Stdout (background_done p status)
    ∈ (foldl (fun st x => reap_slot poll x st) (bg, cs, tr) l).2.
Proof.
  induction l as [|a l IH]; intros bg cs tr i p Hin Hi Hp Hpoll.
  - inversion Hin.
  - cbn [foldl]. destruct (decide (a = i)) as [->|Hne].
    + rewrite (reap_slot_failed poll i bg cs tr p Hi Hp Hpoll).
      destruct (reap_fold_inv poll l (<[i := 0]> bg) cs
                  (tr ++ [WaitPid p WNOHANG; Stdout (background_done p cs)]))
        as (bg2 & cs2 & e2 & -> & _).
      exists cs. cbn [snd]. rewrite !elem_of_app. left. right. right. left.
    + apply elem_of_cons in Hin as [->|Hin]; [contradiction|].
      destruct (reap_slot_inv poll a bg cs tr) as (bg1 & cs1 & e1 & -> & _ & Hbg1).
      apply (IH bg1 cs1 (tr ++ e1) i p); try assumption.
      destruct Hbg1 as [-> | ->]; [exact Hi|].
      rewrite list_lookup_insert_ne by exact Hne. exact Hi.
Qed.

(** X6: a job for which [waitpid] fails (it returns -1, which the test
    [!= 0] takes for a finished child) loses its slot and is announced as
    done, with whatever status the local variable holds at that moment. *)
Theorem X6_reap_failed_wait_frees_slot (w : world) (sh : shell) (x : nat) (p : Z)
    (Hx : (x < BG_SLOTS)%nat)
    (Hslot : bgProcesses sh !! x = Some p)
    (Hp : p <> 0)
    (Hfail : w_poll w (w_clock w) p = WaitFailed) :
  bgProcesses (checkBackgroundProcessTermination w sh).1 !! x = Some 0
  /\ exists status,
       Stdout (background_done p status)
       ∈ (checkBackgroundProcessTermination w sh).2.
Proof.
  split.
  - rewrite reap_table, Hslot, decide_True by exact Hx.
    cbn. f_equal. unfold slot_after.
    destruct (Z.eqb_spec p 0); [contradiction|]. rewrite Hfail. reflexivity.
  - unfold checkBackgroundProcessTermination.
    destruct (reap_fold_failed (w_poll w (w_clock w)) (seq 0 BG_SLOTS)
                (bgProcesses sh) (w_uninit w) [Enter reap_fn] x p)
      as [status Hnote]; try assumption; [apply elem_of_seq; lia|].
    exists status. destruct (foldl _ _ _) as [[bg cs] tr]. exact Hnote.
Qed.

(** X6 for job 600 in slot 1, whose [waitpid] fails. *)
Lemma X6_reap_failed_wait_frees_slot_witness :
  bgProcesses (checkBackgroundProcessTermination failing_world two_jobs_shell).1
    !! 1%nat = Some 0
  /\ exists status,
       Stdout (background_done 600 status)
       ∈ (checkBackgroundProcessTermination failing_world two_jobs_shell).2.
Proof.
  apply (X6_reap_failed_wait_frees_slot failing_world two_jobs_shell 1 600).
  - unfold BG_SLOTS. lia.
  - reflexivity.
  - lia.
  - reflexivity.
Defined.

Lemma first_free_found (bg : list Z) (i : nat) :
  bg !! i = Some 0 ->
  (forall j v, (j < i)%nat -> bg !! j = Some v -> v <> 0) ->
  forall n x, (x <= i < x + n)%nat -> first_free x n bg = Some i.
Proof.
  intros Hfree Hfirst. induction n as [|n IH]; intros x Hx; [lia|].
  cbn [first_free]. destruct (decide (x = i)) as [->|Hne].
  - rewrite Hfree. reflexivity.
  - destruct (bg !! x) as [v|] eqn:Hv.
    + destruct (Z.eqb_spec v 0) as [->|_].
      * exfalso. apply (Hfirst x 0); [lia | exact Hv | reflexivity].
      * apply IH. lia.
    + apply lookup_ge_None in Hv. apply lookup_lt_Some in Hfree. lia.
Qed.

Lemma register_first_free (w : world) (sh : shell) (i : nat) :
  bgFlag sh = 1 -> (i < BG_SLOTS)%nat ->
  bgProcesses sh !! i = Some 0 ->
  (forall j v, (j < i)%nat -> bgProcesses sh !! j = Some v -> v <> 0) ->
  parent_branch w NORMAL sh
  = (set_bgProcesses (<[i := childPID sh]> (bgProcesses sh)) sh,
     [Stdout (background_started (childPID sh))]).
Proof.
  intros Hbg Hi Hfree Hfirst. unfold parent_branch. rewrite Hbg.
  change ((1 =? 1) && (NORMAL =? 0)) with true. cbv iota.
  unfold register.
  rewrite (first_free_found _ i Hfree Hfirst BG_SLOTS 0) by lia. reflexivity.
Qed.



(** X8: registering a background job and reaping once it has ended, while
    the other jobs of the table are still running, gives the table back as
    it was before the job started, and announces the job. *)
Theorem X8_register_then_reap (w : world) (sh : shell) (i : nat) (status : Z)
    (Hbg : bgFlag sh = 1)
    (Hi : (i < BG_SLOTS)%nat)
    (Hfree : bgProcesses sh !! i = Some 0)
    (Hfirst : forall j v, (j < i)%nat -> bgProcesses sh !! j = Some v -> v <> 0)
    (Hpid : childPID sh <> 0)
    (Hended : w_poll w (w_clock w) (childPID sh) = Terminated status)
    (Hothers : forall j q, bgProcesses sh !! j = Some q -> q <> 0 ->
                           w_poll w (w_clock w) q = StillRunning) :
  bgProcesses
    (checkBackgroundProcessTermination w (parent_branch w NORMAL sh).1).1
  = bgProcesses sh
  /\ Stdout (background_done (childPID sh) status)
     ∈ (checkBackgroundProcessTermination w (parent_branch w NORMAL sh).1).2.
Proof.
  rewrite (register_first_free w sh i Hbg Hi Hfree Hfirst). cbn [fst].
  split.
  - apply list_eq. intros k. rewrite reap_table.
    cbn [bgProcesses set_bgProcesses].
    destruct (decide (k = i)) as [->|Hne].
    + rewrite decide_True by exact Hi.
      rewrite list_lookup_insert_eq by (eapply lookup_lt_Some, Hfree).
      rewrite Hfree. cbn. f_equal. unfold slot_after.
      destruct (Z.eqb_spec (childPID sh) 0); [contradiction|].
      rewrite Hended. reflexivity.
    + rewrite list_lookup_insert_ne by congruence.
      destruct (decide (k < BG_SLOTS)%nat); [|reflexivity].
      destruct (bgProcesses sh !! k) as [q|] eqn:Hq; [|reflexivity].
      cbn. f_equal. unfold slot_after.
      destruct (Z.eqb_spec q 0) as [->|Hq0]; [reflexivity|].
      rewrite (Hothers k q Hq Hq0). reflexivity.
  - pose proof (reap_fold_freed (w_poll w (w_clock w)) (seq 0 BG_SLOTS)
                  (<[i := childPID sh]> (bgProcesses sh)) (w_uninit w)
                  [Enter reap_fn] i (childPID sh) status) as Hnote.
    unfold checkBackgroundProcessTermination. cbn [bgProcesses set_bgProcesses].
    destruct (foldl _ _ _) as [[bg cs] tr]. cbn [snd].
    apply Hnote; try assumption; [apply elem_of_seq; lia|].
    apply list_lookup_insert_eq. eapply lookup_lt_Some, Hfree.
Qed.

(** X8 for the table with jobs in slots 0 and 1 and the new job 777, which
    has ended when the table is polled. *)
Lemma X8_register_then_reap_witness :
  bgProcesses
    (checkBackgroundProcessTermination quiet_then_done
       (parent_branch quiet_then_done NORMAL two_jobs_shell).1).1
  = bgProcesses two_jobs_shell.
Proof.
  refine (proj1 (X8_register_then_reap quiet_then_done two_jobs_shell 2 0
                   eq_refl _ eq_refl _ _ eq_refl _)).
  - unfold BG_SLOTS. lia.
  - intros [|[|j]] v Hj Hv; [| |lia]; vm_compute in Hv;
      injection Hv as <-; discriminate.
  - discriminate.
  - intros j q Hq Hq0.
    assert (Hcases : q = 500 \/ q = 600).
    { destruct j as [|[|j]]; vm_compute in Hq.
      - injection Hq as <-. left. reflexivity.
      - injection Hq as <-. right. reflexivity.
      - exfalso. apply Hq0.
        change (replicate 48 0 !! j = Some q) in Hq.
        apply lookup_replicate in Hq as [-> _]. reflexivity. }
    destruct Hcases as [-> | ->]; reflexivity.
Defined.

(** ** The child: signal disposition and redirection *)

Ltac touch_case Hpw :=
  cbn in Hpw; first [discriminate Hpw | (inversion Hpw; subst; split; reflexivity)].

Lemma redirect_stdin_events ce sh :
  Forall (fun e => is_sigaction e = false /\ writes_or_execs e = false
                   /\ forall pw, touches e = Some pw ->
                                 stdin_source sh = Some pw.1 /\ pw.2 = false)
         (redirect_stdin ce sh).1.
Proof.
  unfold redirect_stdin, stdin_source.
  destruct (bool_decide (inputFile sh <> None) || (bgFlag sh =? 1)) eqn:Hneed;
    [|apply List.Forall_nil].
  assert (Hsrc : match inputFile sh with
                 | Some f => Some f
                 | None => if bgFlag sh =? 1 then Some dev_null else None
                 end = Some (default dev_null (inputFile sh))).
  { destruct (inputFile sh); [reflexivity|].
    rewrite bool_decide_eq_false_2 in Hneed by (intros H; apply H; reflexivity).
    cbn [orb] in Hneed. rewrite Hneed. reflexivity. }
  rewrite Hsrc. generalize (default dev_null (inputFile sh)). intros path.
  destruct (c_open_rd ce path); [destruct (c_dup2 ce 0)|]; cbn [fst];
    repeat (apply List.Forall_cons;
            [apply conj; [reflexivity|]; apply conj; [reflexivity|];
             intros pw Hpw; touch_case Hpw|]);
    apply List.Forall_nil.
Qed.

Lemma redirect_stdout_events ce sh :
  Forall (fun e => is_sigaction e = false
                   /\ forall pw, touches e = Some pw ->
                                 stdout_target sh = Some pw.1 /\ pw.2 = true)
         (redirect_stdout ce sh).1.
Proof.
  unfold redirect_stdout, stdout_target.
  destruct (bool_decide (outputFile sh <> None) || (bgFlag sh =? 1)) eqn:Hneed;
    [|apply List.Forall_nil].
  assert (Hsrc : match outputFile sh with
                 | Some f => Some f
                 | None => if bgFlag sh =? 1 then Some dev_null else None
                 end = Some (default dev_null (outputFile sh))).
  { destruct (outputFile sh); [reflexivity|].
    rewrite bool_decide_eq_false_2 in Hneed by (intros H; apply H; reflexivity).
    cbn [orb] in Hneed. rewrite Hneed. reflexivity. }
  rewrite Hsrc. generalize (default dev_null (outputFile sh)). intros path.
  destruct (c_open_wr ce path); [destruct (c_dup2 ce 1)|]; cbn [fst];
    repeat (apply List.Forall_cons;
            [apply conj; [reflexivity|]; intros pw Hpw; touch_case Hpw|]);
    apply List.Forall_nil.
Qed.

Lemma run_execvp_events ce sh :
  Forall (fun e => is_sigaction e = false /\ touches e = None) (run_execvp ce sh).1.
Proof.
  unfold run_execvp. destruct (c_exec ce _ _); cbn [fst];
    repeat first [apply List.Forall_nil | apply List.Forall_cons; [split; reflexivity|]].
Qed.

(** The trace of the child: the signal step, then the rest. *)
Lemma child_branch_shape ce fg sh :
  exists rest,
    (child_branch ce fg sh).1
    = (if (bgFlag sh =? 0) || (fg =? 1) then [Sigaction SIGINT SIG_DFL] else [])
      ++ rest
    /\ Forall (fun e => is_sigaction e = false
                        /\ forall pw, touches e = Some pw ->
                             (if pw.2 then stdout_target sh else stdin_source sh)
                             = Some pw.1) rest.
Proof.
  unfold child_branch.
  pose proof (redirect_stdin_events ce sh) as Hin.
  pose proof (redirect_stdout_events ce sh) as Hout.
  pose proof (run_execvp_events ce sh) as Hexec.
  assert (Hin' : Forall (fun e => is_sigaction e = false
                        /\ forall pw, touches e = Some pw ->
                             (if pw.2 then stdout_target sh else stdin_source sh)
                             = Some pw.1) (redirect_stdin ce sh).1).
  { eapply Forall_impl; [exact Hin|]. intros e (Hs & _ & Ht). split; [exact Hs|].
    intros pw Hpw. destruct (Ht pw Hpw) as [Hsrc ->]. exact Hsrc. }
  assert (Hout' : Forall (fun e => is_sigaction e = false
                        /\ forall pw, touches e = Some pw ->
                             (if pw.2 then stdout_target sh else stdin_source sh)
                             = Some pw.1) (redirect_stdout ce sh).1).
  { eapply Forall_impl; [exact Hout|]. intros e (Hs & Ht). split; [exact Hs|].
    intros pw Hpw. destruct (Ht pw Hpw) as [Hsrc ->]. exact Hsrc. }
  assert (Hexec' : Forall (fun e => is_sigaction e = false
                        /\ forall pw, touches e = Some pw ->
                             (if pw.2 then stdout_target sh else stdin_source sh)
                             = Some pw.1) (run_execvp ce sh).1).
  { eapply Forall_impl; [exact Hexec|]. intros e (Hs & Ht). split; [exact Hs|].
    intros pw Hpw. rewrite Ht in Hpw. discriminate. }
  destruct (redirect_stdin ce sh) as [tr1 [st1|]]; cbn [fst snd] in *.
  { exists tr1. split; [reflexivity | exact Hin']. }
  destruct (redirect_stdout ce sh) as [tr2 [st2|]]; cbn [fst snd] in *.
  { exists (tr1 ++ tr2). split; [reflexivity | apply Forall_app; auto]. }
  destruct (run_execvp ce sh) as [tr3 fin]; cbn [fst snd] in *.
  exists (tr1 ++ tr2 ++ tr3). split; [reflexivity|].
  repeat (apply Forall_app; split); assumption.
Qed.

(** X9: the child gives the interrupt signal its default action exactly
    when it runs in the foreground, that is without a background request or
    in foreground-only mode; a background child in normal mode never
    changes a signal disposition. *)
Theorem X9_child_interruptible_iff_foreground (ce : child_env) (fg : Z)
    (sh : shell) (signo : Z) (h : sighandler) :
  Sigaction signo h ∈ (child_branch ce fg sh).1
  <-> signo = SIGINT /\ h = SIG_DFL /\ (bgFlag sh = 0 \/ fg = 1).
Proof.
  destruct (child_branch_shape ce fg sh) as (rest & -> & Hrest).
  assert (Hnot : Sigaction signo h ∉ rest).
  { intros Hin. rewrite Forall_forall in Hrest.
    destruct (Hrest _ Hin) as [H _]. discriminate H. }
  rewrite elem_of_app. split.
  - intros [Hin|Hin]; [|contradiction].
    destruct (Z.eqb_spec (bgFlag sh) 0) as [Hb|Hb];
      [|destruct (Z.eqb_spec fg 1) as [Hf|Hf]]; cbn [orb] in Hin;
      try (apply list_elem_of_singleton in Hin; injection Hin as -> ->; auto).
    inversion Hin.
  - intros (-> & -> & Hfg). left.
    destruct (Z.eqb_spec (bgFlag sh) 0) as [Hb|Hb];
      [|destruct (Z.eqb_spec fg 1) as [Hf|Hf]]; cbn [orb];
      try (apply list_elem_of_singleton; reflexivity).
    destruct Hfg; contradiction.
Qed.

(** X10: the child opens, and puts on a standard descriptor, only the file
    named on the line for that direction, or the null device when the line
    asked for the background and named no file for it; with neither, the
    descriptor is left alone. *)
Theorem X10_child_touches_only_named_files (ce : child_env) (fg : Z) (sh : shell)
    (e : event) (path : string) (writing : bool) :
  e ∈ (child_branch ce fg sh).1 ->
  touches e = Some (path, writing) ->
  (if writing then stdout_target sh else stdin_source sh) = Some path.
Proof.
  destruct (child_branch_shape ce fg sh) as (rest & -> & Hrest).
  intros Hin Htouch. apply elem_of_app in Hin as [Hin|Hin].
  - destruct ((bgFlag sh =? 0) || (fg =? 1)); [|inversion Hin].
    apply list_elem_of_singleton in Hin. subst e. discriminate.
  - rewrite Forall_forall in Hrest. destruct (Hrest _ Hin) as [_ H].
    exact (H (path, writing) Htouch).
Qed.

(** X10 for [ls &] in normal mode: the input comes from the null device. *)
Lemma X10_child_touches_only_named_files_witness :
  stdin_source (shell_after 4242 (line "ls &")) = Some dev_null.
Proof.
  apply (X10_child_touches_only_named_files all_succeed NORMAL
           (shell_after 4242 (line "ls &")) (Open dev_null false) dev_null false).
  - vm_compute. left.
  - reflexivity.
Defined.

(** X11: when standard input has to be redirected and that fails, the
    child leaves with status 1 (the file cannot be opened) or 2 (it cannot
    be put on descriptor 0) before it opens, creates or truncates any file
    for writing and before it tries to start the program. *)
Theorem X11_failed_input_stops_child (ce : child_env) (fg : Z) (sh : shell)
    (path : string)
    (Hsource : stdin_source sh = Some path)
    (Hfail : c_open_rd ce path = false \/ c_dup2 ce 0 = false) :
  (child_branch ce fg sh).2 = Exited (if c_open_rd ce path then 2 else 1)
  /\ Forall (fun e => writes_or_execs e = false) (child_branch ce fg sh).1.
Proof.
  assert (Hend : (redirect_stdin ce sh).2
                 = Some (if c_open_rd ce path then 2 else 1)).
  { unfold redirect_stdin. unfold stdin_source in Hsource.
    destruct (inputFile sh) as [f|].
    - injection Hsource as ->. rewrite bool_decide_eq_true_2 by discriminate.
      cbn [orb default]. unfold id.
      destruct (c_open_rd ce path) eqn:Hopen; [|reflexivity].
      destruct Hfail as [Hf|Hf]; [discriminate|]. rewrite Hf. reflexivity.
    - destruct (bgFlag sh =? 1); [|discriminate]. injection Hsource as <-.
      rewrite orb_true_r. cbn [default].
      destruct (c_open_rd ce dev_null) eqn:Hopen; [|reflexivity].
      destruct Hfail as [Hf|Hf]; [discriminate|]. rewrite Hf. reflexivity. }
  pose proof (redirect_stdin_events ce sh) as Hin.
  unfold child_branch.
  destruct (redirect_stdin ce sh) as [tr1 [st|]]; cbn [fst snd] in *;
    [|discriminate].
  injection Hend as ->. split; [reflexivity|].
  apply Forall_app. split.
  - destruct ((bgFlag sh =? 0) || (fg =? 1));
      repeat first [apply List.Forall_nil | apply List.Forall_cons; [reflexivity|]].
  - eapply Forall_impl; [exact Hin|]. intros e (_ & H & _). exact H.
Qed.

(** X11 for [cat < missing > out] with an input file that cannot be opened. *)
Lemma X11_failed_input_stops_child_witness :
  (child_branch (unreadable "missing") NORMAL
                (shell_after 4242 (line "cat < missing > out"))).2 = Exited 1.
Proof.
  exact (proj1 (X11_failed_input_stops_child (unreadable "missing") NORMAL
                  (shell_after 4242 (line "cat < missing > out")) "missing"
                  eq_refl (or_introl eq_refl))).
Defined.

(** ** [pidReplacement] on whole tokens *)

(** X12: on a token that holds no [%], [pidReplacement] writes the
    expansion into the token's own block of [strlen(token) + 1] bytes.  When
    the token holds a [$$] and the decimal pid has more than two characters
    the write runs past the end of that block.  Otherwise the call returns
    the token with every [$$], read from the left, replaced by the decimal
    pid, the same number at every place, and all other characters, a single
    [$] included, as they were. *)
Theorem X12_pidReplacement_expands_or_overruns (p : Z) (token : string)
    (Hplain : lacks "%" token) :
  pidReplacement p token
  = if has_pair token && (2 <? strlen (fmt_d p))%nat
    then Fault OutOfBounds
    else Ok (expand p token).
Proof. exact (pidReplacement_expand p token Hplain). Qed.

(** X12 for the token [a$$b$$$], with the pids 42 and 4242. *)
Lemma X12_pidReplacement_expands_or_overruns_witness :
  lacks "%" "a$$b$$$"
  /\ pidReplacement 42 "a$$b$$$" = Ok "a42b42$"
  /\ pidReplacement 4242 "a$$b$$$" = Fault OutOfBounds.
Proof.
  assert (H : lacks "%" "a$$b$$$") by (cbn; repeat split; discriminate).
  split; [exact H|]. split.
  - exact (X12_pidReplacement_expands_or_overruns 42 "a$$b$$$" H).
  - exact (X12_pidReplacement_expands_or_overruns 4242 "a$$b$$$" H).
Defined.

Lemma pidReplacement_loop_no_pair p size fuel : forall pre suf,
  has_pair suf = false ->
  (strlen suf < fuel)%nat ->
  pidReplacement_loop fuel p size (strlen pre) (pre +:+ suf) = Ok (pre +:+ suf).
Proof.
  induction fuel as [|fuel IH]; intros pre suf Hpair Hfuel; [lia|].
  rewrite pidReplacement_loop_unfold.
  destruct suf as [|c r].
  { rewrite strlen_append.
    replace (strlen pre <? strlen pre + strlen "")%nat with false
      by (symmetry; apply Nat.ltb_ge; cbn; lia).
    reflexivity. }
  replace (strlen pre <? strlen (pre +:+ String c r))%nat with true
    by (symmetry; apply Nat.ltb_lt; rewrite strlen_append; cbn; lia).
  rewrite has_pair_cons in Hpair. apply orb_false_elim in Hpair as [Hhere Hrest].
  rewrite pair_test, Hhere.
  rewrite append_snoc, <- (strlen_snoc pre c). apply IH; [exact Hrest|].
  cbn in Hfuel. unfold strlen. lia.
Qed.

(** X13: a token in which no two [$] stand side by side comes back from
    [pidReplacement] unchanged, whatever else it holds; in particular
    [sprintf] is never run on a token with [%] but without [$$]. *)
Theorem X13_pidReplacement_without_pair (p : Z) (token : string)
    (Hpair : has_pair token = false) :
  pidReplacement p token = Ok token.
Proof.
  unfold pidReplacement, pidReplacement_bound.
  apply (pidReplacement_loop_no_pair p _ _ "" token Hpair). lia.
Qed.

(** X13 for the token [100%$a$]. *)
Lemma X13_pidReplacement_without_pair_witness :
  pidReplacement 4242 "100%$a$" = Ok "100%$a$".
Proof. exact (X13_pidReplacement_without_pair 4242 "100%$a$" eq_refl). Defined.

(** ** From the text of a line to the exec vector *)









Lemma loaded_all_null : loaded [] = replicate MAX_ARGS None.
Proof. reflexivity. Qed.









(** X15: on a token sequence that starts with a command, the scan and the
    clearing loop return, and the exec vector they leave is a prefix of the
    tokens that holds neither [<] nor [>] and does not reach an [&] in last
    position. *)
Theorem X15_exec_vector_without_operators (toks : list string) (sh : shell)
    (Hcmd : command_first toks)
    (Hload : cmdLineArgs sh = loaded toks) :
  exists sh',
    extract_redirection (length toks) sh = Ok sh'
    /\ argv_of (cmdLineArgs sh')
       = take (length (argv_of (cmdLineArgs sh'))) toks
    /\ Forall (fun t => is_redirect t = false) (argv_of (cmdLineArgs sh'))
    /\ (last toks = Some "&" ->
        (length (argv_of (cmdLineArgs sh')) < length toks)%nat).
Proof.
  destruct (extract_redirection_spec toks Hcmd sh Hload) as (sh' & Hrun & Hargv).
  destruct (exec_vector_clean toks Hcmd) as [Hclean Hamp].
  exists sh'. split; [exact Hrun|]. rewrite Hargv.
  split; [|split; assumption].
  unfold exec_vector. rewrite length_take.
  destruct (Nat.min_spec (cut_point toks) (length toks)) as [[_ ->]|[Hle ->]];
    [reflexivity|].
  rewrite !take_ge by lia. reflexivity.
Qed.

(** X15 for the tokens of [sort < in > out &]. *)
Lemma X15_exec_vector_without_operators_witness :
  exists sh',
    extract_redirection 6
      (set_cmdLineArgs (loaded ["sort"; "<"; "in"; ">"; "out"; "&"])
                       (shellSetUp 4242)) = Ok sh'
    /\ argv_of (cmdLineArgs sh')
       = take (length (argv_of (cmdLineArgs sh')))
              ["sort"; "<"; "in"; ">"; "out"; "&"]
    /\ Forall (fun t => is_redirect t = false) (argv_of (cmdLineArgs sh'))
    /\ (last ["sort"; "<"; "in"; ">"; "out"; "&"] = Some "&" ->
        (length (argv_of (cmdLineArgs sh')) < 6)%nat).
Proof.
  refine (X15_exec_vector_without_operators
            ["sort"; "<"; "in"; ">"; "out"; "&"]
            (set_cmdLineArgs (loaded ["sort"; "<"; "in"; ">"; "out"; "&"])
                             (shellSetUp 4242)) _ eq_refl).
  split; [vm_compute; lia|].
  split; intros t Ht; vm_compute in Ht; injection Ht as <-; reflexivity.
Defined.

(** ** The file names and the background flag the scan leaves *)

Lemma target_upto_S op toks y before t :
  toks !! y = Some t ->
  target_upto op toks (S y) before
  = if streq t op then toks !! (y + 1)%nat else target_upto op toks y before.
Proof. intros Ht. cbn [target_upto]. rewrite Ht. reflexivity. Qed.

Lemma redirect_step_fields toks sh0 y st st' :
  command_first toks -> (y < length toks)%nat ->
  scanned toks y st -> scanned_fields toks sh0 y st ->
  redirect_step y st = Ok st' ->
  scanned_fields toks sh0 (S y) st'.
Proof.
  intros Hcmd Hy [Hargs _] (Hin & Hout & Hbg) Hstep.
  destruct st as [sh io]. cbn [fst snd] in *.
  rewrite bool_decide_eq_false_2 in Hargs, Hbg by lia.
  destruct (toks !! y) as [t|] eqn:Ht; [|apply lookup_ge_None in Ht; lia].
  unfold scanned_fields.
  rewrite (target_upto_S "<" toks y _ t Ht), (target_upto_S ">" toks y _ t Ht).
  unfold redirect_step in Hstep. cbv beta iota in Hstep.
  rewrite Hargs, (loaded_token toks y t Ht) in Hstep.
  destruct (streq t "<") eqn:Hlt.
  { assert (Hop : is_redirect t = true) by (unfold is_redirect; rewrite Hlt; reflexivity).
    destruct (file_name_follows toks Hcmd y t Ht Hop) as (f & Hf & Hmore).
    rewrite (loaded_token toks _ f Hf) in Hstep. injection Hstep as <-.
    apply String.eqb_eq in Hlt. subst t. cbn [fst inputFile outputFile bgFlag set_inputFile].
    change (streq "<" ">") with false. cbv iota.
    rewrite bool_decide_eq_false_2 by (intros [? _]; contradiction).
    split; [symmetry; exact Hf | split; assumption]. }
  destruct (streq t ">") eqn:Hgt.
  { assert (Hop : is_redirect t = true)
      by (unfold is_redirect; rewrite Hlt, Hgt; reflexivity).
    destruct (file_name_follows toks Hcmd y t Ht Hop) as (f & Hf & Hmore).
    rewrite (loaded_token toks _ f Hf) in Hstep. injection Hstep as <-.
    cbn [fst inputFile outputFile bgFlag set_outputFile].
    rewrite bool_decide_eq_false_2 by (intros [? _]; contradiction).
    split; [exact Hin | split; [symmetry; exact Hf | exact Hbg]]. }
  destruct (streq t "&") eqn:Hamp.
  - apply String.eqb_eq in Hamp. subst t.
    destruct (decide (S y = length toks)) as [Hlast|Hmore].
    + rewrite loaded_null in Hstep by (destruct Hcmd as [? _]; lia).
      injection Hstep as <-.
      cbn [fst inputFile outputFile bgFlag set_cmdLineArgs set_bgFlag].
      rewrite bool_decide_eq_true_2
        by (split; [exact Hlast | exact (last_token toks y _ Ht Hlast)]).
      split; [exact Hin | split; [exact Hout | reflexivity]].
    + destruct (toks !! (y + 1)%nat) as [u|] eqn:Hu;
        [|apply lookup_ge_None in Hu; lia].
      rewrite (loaded_token toks _ u Hu) in Hstep. injection Hstep as <-.
      cbn [fst]. rewrite bool_decide_eq_false_2 by (intros [? _]; contradiction).
      split; [exact Hin | split; [exact Hout | exact Hbg]].
  - injection Hstep as <-. cbn [fst].
    rewrite bool_decide_eq_false_2.
    + split; [exact Hin | split; [exact Hout | exact Hbg]].
    + intros [Hlast Hend]. rewrite (last_token toks y t Ht Hlast) in Hend.
      injection Hend as ->. discriminate Hamp.
Qed.

Lemma target_upto_names op toks before : forall y,
  (exists i, (i < y)%nat /\ toks !! i = Some op
             /\ (forall j, (i < j < y)%nat -> toks !! j <> Some op)
             /\ target_upto op toks y before = toks !! (i + 1)%nat)
  \/ ((forall j, (j < y)%nat -> toks !! j <> Some op)
      /\ target_upto op toks y before = before).
Proof.
  induction y as [|y IH]; [right; split; [intros j Hj; lia | reflexivity]|].
  cbn [target_upto]. destruct (toks !! y) as [t|] eqn:Ht.
  - destruct (streq t op) eqn:Hop.
    + apply String.eqb_eq in Hop. subst t. left. exists y.
      split; [lia|]. split; [exact Ht|]. split; [intros j Hj; lia | reflexivity].
    + assert (Hne : toks !! y <> Some op).
      { rewrite Ht. intros [= ->]. unfold streq in Hop.
        rewrite String.eqb_refl in Hop. discriminate. }
      destruct IH as [(i & Hi & Hat & Hlater & Hval)|[Hnone Hval]].
      * left. exists i. split; [lia|]. split; [exact Hat|]. split; [|exact Hval].
        intros j Hj. destruct (decide (j = y)) as [->|]; [exact Hne|].
        apply Hlater. lia.
      * right. split; [|exact Hval]. intros j Hj.
        destruct (decide (j = y)) as [->|]; [exact Hne|]. apply Hnone. lia.
  - assert (Hne : toks !! y <> Some op) by (rewrite Ht; discriminate).
    destruct IH as [(i & Hi & Hat & Hlater & Hval)|[Hnone Hval]].
    + left. exists i. split; [lia|]. split; [exact Hat|]. split; [|exact Hval].
      intros j Hj. destruct (decide (j = y)) as [->|]; [exact Hne|].
      apply Hlater. lia.
    + right. split; [|exact Hval]. intros j Hj.
      destruct (decide (j = y)) as [->|]; [exact Hne|]. apply Hnone. lia.
Qed.

Lemma target_upto_all op toks before :
  names_target op toks before (target_upto op toks (length toks) before).
Proof.
  assert (Hpast : forall j, (length toks <= j)%nat -> toks !! j <> Some op).
  { intros j Hj. rewrite (proj2 (lookup_ge_None toks j) Hj). discriminate. }
  destruct (target_upto_names op toks before (length toks))
    as [(i & Hi & Hat & Hlater & Hval)|[Hnone Hval]].
  - left. exists i. split; [exact Hat|]. split; [|exact Hval].
    intros j Hj. destruct (Nat.lt_ge_cases j (length toks)); [apply Hlater; lia|].
    apply Hpast. lia.
  - right. split; [|exact Hval]. intros j.
    destruct (Nat.lt_ge_cases j (length toks)); [apply Hnone; lia|].
    apply Hpast. lia.
Qed.

Lemma scan_fields toks sh :
  command_first toks -> cmdLineArgs sh = loaded toks ->
  exists sh1 io,
    for_range 0 (length toks) redirect_step (sh, 0%nat) = Ok (sh1, io)
    /\ scanned_fields toks sh (length toks) (sh1, io).
Proof.
  intros Hcmd Hload. pose proof Hcmd as (Hlen & _ & _).
  destruct (for_range_total
              (fun y st => scanned toks y st /\ scanned_fields toks sh y st)
              redirect_step (length toks) 0 (sh, 0%nat))
    as ([sh1 io] & Hrun & _ & Hfields).
  - intros y st Hy [Hscan Hfld].
    destruct (redirect_step_scanned toks Hcmd y st ltac:(lia) Hscan)
      as (st' & Hstep & Hscan').
    exists st'. split; [exact Hstep|]. split; [exact Hscan'|].
    exact (redirect_step_fields toks sh y st st' Hcmd ltac:(lia) Hscan Hfld Hstep).
  - split.
    + split; cbn [fst snd]; [|reflexivity].
      rewrite bool_decide_eq_false_2 by lia. exact Hload.
    + unfold scanned_fields. cbn [fst target_upto].
      rewrite bool_decide_eq_false_2 by lia. auto.
  - exists sh1, io. split; assumption.
Qed.

(** X16: on a token sequence that starts with a command, the scan leaves
    as input file the token after the last [<] and as output file the token
    after the last [>] (both may be given, in either order; with several,
    the last one counts; without, the field keeps its value), and sets the
    background flag exactly for an [&] in last position. *)
Theorem X16_redirection_targets (toks : list string) (sh : shell)
    (Hcmd : command_first toks)
    (Hload : cmdLineArgs sh = loaded toks) :
  exists sh',
    extract_redirection (length toks) sh = Ok sh'
    /\ names_target "<" toks (inputFile sh) (inputFile sh')
    /\ names_target ">" toks (outputFile sh) (outputFile sh')
    /\ bgFlag sh' = if bool_decide (last toks = Some "&") then 1 else bgFlag sh.
Proof.
  destruct (extract_redirection_spec toks Hcmd sh Hload) as (sh' & Hrun & _).
  destruct (scan_fields toks sh Hcmd Hload) as (sh1 & io & Hscan & Hin & Hout & Hbg).
  exists sh'. split; [exact Hrun|].
  unfold extract_redirection in Hrun. rewrite Hscan in Hrun.
  cbn [mbind result_bind] in Hrun.
  destruct (clear_from io (cmdLineArgs sh1)) as [args'|]; [|discriminate].
  cbn [mbind result_bind] in Hrun. injection Hrun as <-.
  cbn [fst inputFile outputFile bgFlag set_cmdLineArgs] in *.
  rewrite Hin, Hout, Hbg.
  split; [apply target_upto_all|]. split; [apply target_upto_all|].
  destruct (decide (last toks = Some "&")) as [Hamp|Hamp].
  - rewrite !bool_decide_eq_true_2 by auto. reflexivity.
  - rewrite !bool_decide_eq_false_2 by tauto. reflexivity.
Qed.

(** X16 for the tokens of [sort < a < b > out &]. *)
Lemma X16_redirection_targets_witness :
  exists sh',
    extract_redirection 8
      (set_cmdLineArgs (loaded ["sort"; "<"; "a"; "<"; "b"; ">"; "out"; "&"])
                       (shellSetUp 4242)) = Ok sh'
    /\ names_target "<" ["sort"; "<"; "a"; "<"; "b"; ">"; "out"; "&"]
                    None (inputFile sh')
    /\ names_target ">" ["sort"; "<"; "a"; "<"; "b"; ">"; "out"; "&"]
                    None (outputFile sh')
    /\ bgFlag sh' = 1.
Proof.
  refine (X16_redirection_targets
            ["sort"; "<"; "a"; "<"; "b"; ">"; "out"; "&"]
            (set_cmdLineArgs (loaded ["sort"; "<"; "a"; "<"; "b"; ">"; "out"; "&"])
                             (shellSetUp 4242)) _ eq_refl).
  split; [vm_compute; lia|].
  split; intros t Ht; vm_compute in Ht; injection Ht as <-; reflexivity.
Defined.


(** ** The prompt loop: lines passed over, lines cut *)


















(** ** The loop of [main] *)























